(** * ScholarSource backend: job submission, polling, notification, page fetch

    A shallow embedding of the request handlers of [backend/main.py], of the
    completion e-mail of [backend/email_service.py] and of the page fetcher of
    [src/scholar_source/tools/webpage_fetcher.py], with the properties the
    specification states about them.

    Python values are embedded as the inductive [pyval]; a [dict] with string
    keys is a [gmap string pyval]; a call that may raise returns a [result];
    code that talks to the outside world threads a world state explicitly. *)

From stdpp Require Import gmap strings list pretty.

Open Scope string_scope.

(** ** Python values, exceptions, results *)

(** The values a JSON row, a request body or a response payload can hold. *)
#[warnings="-register-all"]
Inductive pyval : Type :=
| PNone
| PBool (b : bool)
| PInt (z : Z)
| PStr (s : string)
| PList (l : list pyval)
| PDict (d : gmap string pyval).

(** A Python [dict] keyed by strings. *)
Abbreviation pydict := (gmap string pyval).

(** Truthiness, as [if v] and [not v] test it. *)
Definition truthy (v : pyval) : bool :=
  match v with
  | PNone => false
  | PBool b => b
  | PInt z => negb (Z.eqb z 0)
  | PStr s => negb (String.eqb s "")
  | PList l => match l with [] => false | _ => true end
  | PDict d => negb (bool_decide (d = ∅))
  end.

(** [v == s] for a string literal [s]: only a [str] equals a [str]. *)
Definition eq_str (v : pyval) (s : string) : bool :=
  match v with
  | PStr t => String.eqb t s
  | _ => false
  end.

(** [d.get(k)]: the value, or [None] when the key is absent. *)
Definition dict_get (d : pydict) (k : string) : pyval :=
  default PNone (d !! k).

(** [d.get(k, dflt)]. *)
Definition dict_get_default (d : pydict) (k : string) (dflt : pyval) : pyval :=
  default dflt (d !! k).

(** [str(v)], as an f-string renders [v]. A scalar is rendered as Python
    does; the text of a list or of a dict is their [repr], which is left to
    [repr_compound]. *)
Definition py_str (repr_compound : pyval -> string) (v : pyval) : string :=
  match v with
  | PNone => "None"
  | PBool true => "True"
  | PBool false => "False"
  | PInt z => pretty z
  | PStr s => s
  | PList _ | PDict _ => repr_compound v
  end.

(** The classes of exception the handlers of this code base tell apart.
    [RequestsTimeout], [RequestsHTTPError] and [RequestsOther] are the
    [requests.exceptions] classes [Timeout], [HTTPError] and any other
    subclass of [RequestException]; an [HTTPError] carries the status code
    of the response it was raised for. Every class here derives from
    [Exception]. *)
Inductive exc_class : Type :=
| KeyError
| RequestsTimeout
| RequestsHTTPError (status_code : Z)
| RequestsOther
| OtherException.

(** A raised exception: its class and the text [str(e)] gives. *)
Record exn : Type := Exn { exn_class : exc_class; exn_str : string }.

Inductive result (A : Type) : Type :=
| Ok (a : A)
| Raise (e : exn).
Arguments Ok {A} a.
Arguments Raise {A} e.

(** [repr] of a dictionary key, as [str(KeyError(k))] shows it. *)
Definition key_repr (k : string) : string := "'" ++ k ++ "'".

(** [d[k]]: the value, or [KeyError]. *)
Definition dict_item (d : pydict) (k : string) : result pyval :=
  match d !! k with
  | Some v => Ok v
  | None => Raise (Exn KeyError (key_repr k))
  end.

(** ** A state and exception monad for code with [try] and [except] *)

Definition M (S A : Type) : Type := S -> result A * S.

Definition ret {S A : Type} (a : A) : M S A := fun s => (Ok a, s).

Definition raise {S A : Type} (e : exn) : M S A := fun s => (Raise e, s).

Definition bind {S A B : Type} (m : M S A) (k : A -> M S B) : M S B :=
  fun s =>
    match m s with
    | (Ok a, s1) => k a s1
    | (Raise e, s1) => (Raise e, s1)
    end.

(** [try: body except Exception as e: handler e]. Every class of [exc_class]
    derives from [Exception], so the handler sees every exception of the
    body; what the handler itself raises is not caught. *)
Definition try_except {S A : Type} (body : M S A) (handler : exn -> M S A) : M S A :=
  fun s =>
    match body s with
    | (Ok a, s1) => (Ok a, s1)
    | (Raise e, s1) => handler e s1
    end.

Notation "'let*' x ':=' m 'in' k" := (bind m (fun x => k))
  (at level 10, x pattern, m at level 100, k at level 200).

(** ** The request handlers of [backend/main.py] *)

Module Main.

(** What a handler does: it returns a payload, raises FastAPI's
    [HTTPException(status_code, detail)] (here every [detail] is a dict of
    two strings), or lets another exception through. *)
Inductive response : Type :=
| Returned (payload : pydict)
| HTTPException (status_code : Z) (detail : gmap string string)
| Unhandled (e : exn).

(** The calls a handler makes to its collaborators, in the order made. *)
Inductive call : Type :=
| CallCreateJob (inputs : pydict)
| CallRunCrewAsync (job_id : string) (inputs : pydict)
| CallGetJob (job_id : string)
| CallProbe.

Section Handlers.

(** The state of everything outside the handlers: the job store and the
    background workers. *)
Context {W : Type}.

(** [backend.crew_runner.validate_crew_inputs], [backend.jobs.create_job],
    [backend.crew_runner.run_crew_async] and [backend.jobs.get_job] are
    imported by [main.py]; their modules are not part of the sources at hand,
    so the handlers are stated over any implementation of them. [probe] is
    the query [get_supabase_client().table(jobs).select(id).limit(1).execute()]
    of [health_check]. *)
Variable validate_crew_inputs : pydict -> bool.
Variable create_job : pydict -> W -> result string * W.
Variable run_crew_async : string -> pydict -> W -> result unit * W.
Variable get_job : string -> W -> result (option pydict) * W.
Variable probe : W -> result unit * W.

(** Python's [repr] of lists and dicts, see [py_str]. *)
Variable repr_compound : pyval -> string.

(** The world a handler runs in: the outside state and the log of calls. *)
Record world : Type := World { ext : W; calls : list call }.

Definition logged (c : call) (w : world) (e : W) : world :=
  World e (calls w ++ [c]).

(** [GET /api/health] *)
Definition health_check (w : world) : response * world :=
  let '(r, e1) := probe (ext w) in
  let db_status :=
    match r with
    | Ok _ => "connected"
    | Raise e => "error: " ++ exn_str e
    end in
  (Returned {[ "status" := PStr "healthy";
               "version" := PStr "0.1.0";
               "database" := PStr db_status ]},
   logged CallProbe w e1).

Definition invalid_inputs_detail : gmap string string :=
  {[ "error" := "Invalid inputs";
     "message" := "You must provide at least one of the following: "
               ++ "course information (course_name, university_name, or course_url), "
               ++ "book information (book_title + book_author, or ISBN), "
               ++ "book file (book_pdf_path), or book URL (book_url)" ]}.

Definition job_creation_failed (e : exn) : response :=
  HTTPException 500 {[ "error" := "Job creation failed";
                       "message" := exn_str e ]}.

(** [POST /api/submit]; [inputs] is [request.model_dump()]. *)
Definition submit_job (inputs : pydict) (w : world) : response * world :=
  if negb (validate_crew_inputs inputs) then
    (HTTPException 400 invalid_inputs_detail, w)
  else
    let '(r1, e1) := create_job inputs (ext w) in
    let w1 := logged (CallCreateJob inputs) w e1 in
    match r1 with
    | Raise e => (job_creation_failed e, w1)
    | Ok job_id =>
        let '(r2, e2) := run_crew_async job_id inputs (ext w1) in
        let w2 := logged (CallRunCrewAsync job_id inputs) w1 e2 in
        match r2 with
        | Raise e => (job_creation_failed e, w2)
        | Ok _ =>
            (Returned {[ "job_id" := PStr job_id;
                         "status" := PStr "pending";
                         "message" := PStr "Job created successfully. Use job_id to poll for status." ]},
             w2)
        end
    end.

(** [not job] for the [Optional[dict]] that [get_job] returns. *)
Definition no_job (job : option pydict) : bool :=
  match job with
  | None => true
  | Some d => bool_decide (d = ∅)
  end.

(** The projection of a job row that both read endpoints return. The
    subscripts [job[id]] and [job[created_at]] raise [KeyError] on a row
    without the key; the other fields are read with [job.get]. *)
Definition job_projection (job : pydict) : result pydict :=
  match dict_item job "id" with
  | Raise e => Raise e
  | Ok id =>
      match dict_item job "status" with
      | Raise e => Raise e
      | Ok status =>
          match dict_item job "created_at" with
          | Raise e => Raise e
          | Ok created_at =>
              Ok {[ "job_id" := id;
                    "status" := status;
                    "status_message" := dict_get job "status_message";
                    "search_title" := dict_get job "search_title";
                    "results" := dict_get job "results";
                    "raw_output" := dict_get job "raw_output";
                    "error" := dict_get job "error";
                    "metadata" := dict_get job "metadata";
                    "created_at" := created_at;
                    "completed_at" := dict_get job "completed_at" ]}
          end
      end
  end.

Definition respond (r : result pydict) : response :=
  match r with
  | Ok payload => Returned payload
  | Raise e => Unhandled e
  end.

(** [GET /api/status/{job_id}] *)
Definition get_job_status (job_id : string) (w : world) : response * world :=
  let '(r, e1) := get_job job_id (ext w) in
  let w1 := logged (CallGetJob job_id) w e1 in
  match r with
  | Raise e => (Unhandled e, w1)
  | Ok job =>
      if no_job job then
        (HTTPException 404 {[ "error" := "Job not found";
                              "message" := "No job found with ID: " ++ job_id ]},
         w1)
      else
        (respond (job_projection (default ∅ job)), w1)
  end.

(** [GET /api/results/{job_id}] *)
Definition get_shareable_results (job_id : string) (w : world) : response * world :=
  let '(r, e1) := get_job job_id (ext w) in
  let w1 := logged (CallGetJob job_id) w e1 in
  match r with
  | Raise e => (Unhandled e, w1)
  | Ok job =>
      if no_job job then
        (HTTPException 404 {[ "error" := "Results not found";
                              "message" := "No job found with ID: " ++ job_id ]},
         w1)
      else
        let job := default ∅ job in
        match dict_item job "status" with
        | Raise e => (Unhandled e, w1)
        | Ok status =>
            if negb (eq_str status "completed") then
              (HTTPException 404
                 {[ "error" := "Results not available";
                    "message" := "Job is " ++ py_str repr_compound status
                              ++ ". Results are only available for completed jobs." ]},
               w1)
            else
              (respond (job_projection job), w1)
        end
  end.

End Handlers.

Arguments world W : clear implicits.

End Main.

(** ** The completion e-mail of [backend/email_service.py] *)

Module EmailService.

(** The HTML below is written with a backquote wherever the source has a
    double quote; [with_quotes] puts the double quotes back. *)
Fixpoint with_quotes (s : string) : string :=
  match s with
  | EmptyString => EmptyString
  | String c rest =>
      String (if Ascii.eqb c (Ascii.ascii_of_nat 96) then Ascii.ascii_of_nat 34 else c)
             (with_quotes rest)
  end.

Section Email.

Context {W : Type}.

(** [resend.Emails.send], of the Resend client library. *)
Variable emails_send : pydict -> W -> result pydict * W.

(** The write of one line to [sys.stdout] that the built-in [print] makes.
    It raises when the stream is closed or broken, or when the stream's
    encoding cannot encode the line (the three messages start with a
    character outside ASCII). *)
Variable stdout_write : string -> W -> result unit * W.

Variable repr_compound : pyval -> string.

(** The process around the notifier: the outside (the delivery service and
    the console), the environment variables, the module attribute
    [resend.api_key], and the lines that were printed. *)
Record world : Type := World {
  ext : W;
  environ : gmap string string;
  api_key : option string;
  stdout : list string
}.

(** [print(line)]: the line is on the console if the write returned;
    otherwise the exception of the write is raised. *)
Definition print (line : string) : M world unit :=
  fun w =>
    let '(r, e1) := stdout_write line (ext w) in
    (r, World e1 (environ w) (api_key w)
          (match r with
           | Ok _ => stdout w ++ [line]
           | Raise _ => stdout w
           end)).

Definition getenv (name : string) : M world (option string) :=
  fun w => (Ok (environ w !! name), w).

Definition set_api_key (key : string) : M world unit :=
  fun w => (Ok tt, World (ext w) (environ w) (Some key) (stdout w)).

Definition resend_emails_send (params : pydict) : M world pydict :=
  fun w =>
    let '(r, e1) := emails_send params (ext w) in
    (r, World e1 (environ w) (api_key w) (stdout w)).

(** The body of the [for resource in resources] loop: the text appended to
    [resources_html] for one resource. *)
Definition resource_html (resource : pydict) : string :=
  let resource_type := dict_get_default resource "type" (PStr "Resource") in
  let title := dict_get_default resource "title" (PStr "Untitled") in
  let url := dict_get_default resource "url" (PStr "#") in
  let source := dict_get_default resource "source" (PStr "Unknown") in
  let description := dict_get_default resource "description" (PStr "") in
  with_quotes "
        <div style=`margin-bottom: 20px; padding: 15px; background-color: #f9fafb; border-left: 4px solid #3b82f6; border-radius: 4px;`>
            <div style=`margin-bottom: 8px;`>
                <span style=`display: inline-block; padding: 4px 8px; background-color: #dbeafe; color: #1e40af; border-radius: 4px; font-size: 12px; font-weight: 600; margin-right: 8px;`>
                    "
  ++ py_str repr_compound resource_type
  ++ with_quotes "
                </span>
                <strong style=`font-size: 16px; color: #1f2937;`>"
  ++ py_str repr_compound title
  ++ with_quotes "</strong>
            </div>
            <div style=`margin-bottom: 8px;`>
                <a href=`"
  ++ py_str repr_compound url
  ++ with_quotes "` style=`color: #3b82f6; text-decoration: none; word-break: break-all;`>
                    "
  ++ py_str repr_compound url
  ++ with_quotes "
                </a>
            </div>
            <div style=`color: #6b7280; font-size: 14px;`>
                <strong>Source:</strong> "
  ++ py_str repr_compound source
  ++ with_quotes "
            </div>
            "
  ++ (if truthy description
      then with_quotes "<div style=`margin-top: 8px; color: #4b5563; font-size: 14px;`>"
           ++ py_str repr_compound description ++ "</div>"
      else "")
  ++ with_quotes "
        </div>
        ".

Definition _build_email_html
    (search_title : string) (resources : list pydict) (job_id : string) : string :=
  let resources_html :=
    foldl (fun acc resource => acc ++ resource_html resource) "" resources in
  with_quotes "
    <!DOCTYPE html>
    <html>
    <head>
        <meta charset=`utf-8`>
        <meta name=`viewport` content=`width=device-width, initial-scale=1.0`>
        <title>Your ScholarSource Results</title>
    </head>
    <body style=`font-family: -apple-system, BlinkMacSystemFont, 'Segoe UI', Roboto, 'Helvetica Neue', Arial, sans-serif; line-height: 1.6; color: #1f2937; background-color: #f3f4f6; margin: 0; padding: 0;`>
        <div style=`max-width: 600px; margin: 0 auto; background-color: #ffffff; padding: 40px 30px;`>
            <!-- Header -->
            <div style=`text-align: center; margin-bottom: 30px;`>
                <h1 style=`margin: 0; font-size: 28px; color: #1f2937;`>📚 ScholarSource</h1>
                <p style=`margin: 10px 0 0 0; color: #6b7280;`>Your educational resources are ready!</p>
            </div>

            <!-- Search Title -->
            <div style=`background-color: #eff6ff; padding: 20px; border-radius: 8px; margin-bottom: 30px;`>
                <h2 style=`margin: 0 0 10px 0; font-size: 20px; color: #1e40af;`>
                    "
  ++ search_title
  ++ with_quotes "
                </h2>
                <p style=`margin: 0; color: #6b7280; font-size: 14px;`>
                    We found "
  ++ pretty (List.length resources)
  ++ with_quotes " resource"
  ++ (if negb (Nat.eqb (List.length resources) 1) then "s" else "")
  ++ with_quotes " for you
                </p>
            </div>

            <!-- Resources -->
            <div style=`margin-bottom: 30px;`>
                <h3 style=`margin: 0 0 20px 0; font-size: 18px; color: #1f2937;`>Discovered Resources</h3>
                "
  ++ resources_html
  ++ with_quotes "
            </div>

            <!-- NotebookLM Tip -->
            <div style=`background-color: #fef3c7; border-left: 4px solid #f59e0b; padding: 15px; border-radius: 4px; margin-bottom: 30px;`>
                <p style=`margin: 0; color: #92400e; font-size: 14px;`>
                    💡 <strong>Tip:</strong> Copy the URLs above and paste them into
                    <a href=`https://notebooklm.google.com` style=`color: #b45309; text-decoration: none;`>Google NotebookLM</a>
                    to create flashcards, study guides, and quizzes from these resources.
                </p>
            </div>

            <!-- Footer -->
            <div style=`text-align: center; padding-top: 20px; border-top: 1px solid #e5e7eb;`>
                <p style=`margin: 0; color: #9ca3af; font-size: 12px;`>
                    Job ID: "
  ++ job_id
  ++ with_quotes "
                </p>
                <p style=`margin: 10px 0 0 0; color: #9ca3af; font-size: 12px;`>
                    This email was sent because you requested results from ScholarSource.
                </p>
            </div>
        </div>
    </body>
    </html>
    ".

Definition email_subject (search_title : string) : string :=
  "📚 Your ScholarSource Results: " ++ search_title.

(** The [params] dict handed to [resend.Emails.send]. *)
Definition email_params (from_email to_email search_title html_content : string)
  : pydict :=
  {[ "from" := PStr from_email;
     "to" := PList [PStr to_email];
     "subject" := PStr (email_subject search_title);
     "html" := PStr html_content ]}.

(** [os.getenv(FROM_EMAIL, default)]. *)
Definition from_email_of (env : gmap string string) : string :=
  default "onboarding@resend.dev" (env !! "FROM_EMAIL").

(** [not resend_api_key] for the [Optional[str]] that [os.getenv] returns. *)
Definition not_configured (resend_api_key : option string) : bool :=
  match resend_api_key with
  | None => true
  | Some key => String.eqb key ""
  end.

Definition send_results_email
    (to_email search_title : string) (resources : list pydict) (job_id : string)
  : M world bool :=
  let* resend_api_key := getenv "RESEND_API_KEY" in
  let* from_env := getenv "FROM_EMAIL" in
  let from_email := default "onboarding@resend.dev" from_env in
  if not_configured resend_api_key then
    let* _ := print ("⚠️  Resend API key not configured, skipping email to " ++ to_email) in
    ret false
  else
    let* _ := set_api_key (default "" resend_api_key) in
    try_except
      (let html_content := _build_email_html search_title resources job_id in
       let params := email_params from_email to_email search_title html_content in
       let* response := resend_emails_send params in
       let* _ := print ("✅ Email sent successfully to " ++ to_email ++ " (ID: "
                        ++ py_str repr_compound (dict_get_default response "id" (PStr "unknown"))
                        ++ ")") in
       ret true)
      (fun e =>
         let* _ := print ("❌ Error sending email to " ++ to_email ++ ": " ++ exn_str e) in
         ret false).

End Email.

Arguments world W : clear implicits.

End EmailService.

(** ** The page fetcher of [src/scholar_source/tools/webpage_fetcher.py] *)

Module WebPageFetcherTool.

(** What the handlers here read off a [requests.Response]. *)
Record http_response : Type := HttpResponse { status_code : Z; text : string }.

Definition LF : string := String (Ascii.ascii_of_nat 10) EmptyString.

(** A string stands for a Python [str] through its UTF-8 encoding, as the
    literals of the source do.  [str.strip] removes the characters
    [str.isspace] accepts.  There are 29 of them, told apart here by the
    length of their encoding:
    - one byte: U+0009 to U+000D, U+001C to U+001F and the space U+0020;
    - two bytes: U+0085 (C2 85) and the no-break space U+00A0 (C2 A0);
    - three bytes: U+1680 (E1 9A 80), U+2000 to U+200A (E2 80 80 to
      E2 80 8A), U+2028, U+2029 and U+202F (E2 80 A8, A9 and AF), U+205F
      (E2 81 9F) and U+3000 (E3 80 80). *)
Definition byte_is (c : Ascii.ascii) (n : nat) : bool :=
  Nat.eqb (Ascii.nat_of_ascii c) n.

Definition ascii_space (a : Ascii.ascii) : bool :=
  let n := Ascii.nat_of_ascii a in
  ((9 <=? n)%nat && (n <=? 13)%nat) || ((28 <=? n)%nat && (n <=? 32)%nat).

Definition two_byte_space (a b : Ascii.ascii) : bool :=
  byte_is a 194 && (byte_is b 133 || byte_is b 160).

Definition three_byte_space (a b c : Ascii.ascii) : bool :=
  let n := Ascii.nat_of_ascii c in
  (byte_is a 225 && byte_is b 154 && byte_is c 128)
  || (byte_is a 226 && byte_is b 128
      && (((128 <=? n)%nat && (n <=? 138)%nat)
          || byte_is c 168 || byte_is c 169 || byte_is c 175))
  || (byte_is a 226 && byte_is b 129 && byte_is c 159)
  || (byte_is a 227 && byte_is b 128 && byte_is c 128).

(** What follows the first character of [s], when that character is
    whitespace. *)
Definition head_space (s : string) : option string :=
  match s with
  | EmptyString => None
  | String a r1 =>
      if ascii_space a then Some r1
      else match r1 with
           | EmptyString => None
           | String b r2 =>
               if two_byte_space a b then Some r2
               else match r2 with
                    | EmptyString => None
                    | String c r3 =>
                        if three_byte_space a b c then Some r3 else None
                    end
           end
  end.

(** [s.lstrip()]: whitespace characters are dropped from the front until a
    character that is not whitespace, or the end, is met. *)
Fixpoint lstrip (s : string) : string :=
  match s with
  | EmptyString => EmptyString
  | String a r1 =>
      if ascii_space a then lstrip r1
      else match r1 with
           | EmptyString => s
           | String b r2 =>
               if two_byte_space a b then lstrip r2
               else match r2 with
                    | EmptyString => s
                    | String c r3 =>
                        if three_byte_space a b c then lstrip r3 else s
                    end
           end
  end.

(** [s] is made of whitespace characters only. *)
Definition all_space (s : string) : bool := String.eqb (lstrip s) "".

(** [s.rstrip()]: the string is cut where its tail is whitespace only.  A
    tail that starts inside a character starts with a continuation byte
    (80 to BF), which begins none of the encodings above, so the cut falls
    between characters. *)
Fixpoint rstrip (s : string) : string :=
  match s with
  | EmptyString => EmptyString
  | String c rest => if all_space s then EmptyString else String c (rstrip rest)
  end.

(** [s.strip()] *)
Definition strip (s : string) : string := rstrip (lstrip s).

(** [s.split(LF)]: the pieces between line feeds, empty pieces included. *)
Fixpoint split_lines (s : string) : list string :=
  match s with
  | EmptyString => [EmptyString]
  | String c rest =>
      if Ascii.eqb c (Ascii.ascii_of_nat 10) then EmptyString :: split_lines rest
      else match split_lines rest with
           | piece :: pieces => String c piece :: pieces
           | [] => [String c EmptyString]
           end
  end.

(** [sep.join(pieces)] *)
Fixpoint join (sep : string) (pieces : list string) : string :=
  match pieces with
  | [] => EmptyString
  | [piece] => piece
  | piece :: rest => piece ++ sep ++ join sep rest
  end.

(** The whitespace clean-up at the end of [_run]'s [try] block. *)
Definition clean_text (text : string) : string :=
  let lines :=
    List.map strip
      (List.filter (fun line => negb (String.eqb (strip line) ""))
                   (split_lines text)) in
  join LF lines.

Section Run.

Context {W : Type}.

(** [requests.get(url, timeout=..., headers=...)]. *)
Variable requests_get : string -> Z -> gmap string string -> M W http_response.

(** The message of the [HTTPError] that [raise_for_status] builds. *)
Variable http_error_msg : http_response -> string.

(** BeautifulSoup's part: parsing the page with [html.parser], dropping the
    [script], [style], [nav], [footer] and [header] elements, and
    [get_text(separator=LF, strip=True)]. *)
Variable soup_text : string -> result string.

(** [Response.raise_for_status], of the requests library: a 4xx or 5xx
    status raises an [HTTPError] that carries the response. *)
Definition raise_for_status (response : http_response) : M W unit :=
  if (400 <=? status_code response)%Z && (status_code response <? 600)%Z then
    raise (Exn (RequestsHTTPError (status_code response)) (http_error_msg response))
  else ret tt.

Definition lift {A : Type} (r : result A) : M W A := fun w => (r, w).

Definition user_agent : string :=
  "Mozilla/5.0 (Windows NT 10.0; Win64; x64) AppleWebKit/537.36".

(** The [try] block of [_run]. *)
Definition fetch (url : string) : M W string :=
  let* response := requests_get url 15 {[ "User-Agent" := user_agent ]} in
  let* _ := raise_for_status response in
  let* text := lift (soup_text (text response)) in
  let cleaned_text := clean_text text in
  ret cleaned_text.

(** The [except] clauses of [_run], tried in the order written: [Timeout],
    [HTTPError], [RequestException], [Exception]. *)
Definition on_error (url : string) (e : exn) : M W string :=
  match exn_class e with
  | RequestsTimeout =>
      ret ("ERROR: Request timed out while fetching " ++ url)
  | RequestsHTTPError status_code =>
      ret ("ERROR: HTTP error " ++ pretty status_code ++ " while fetching " ++ url)
  | RequestsOther =>
      ret ("ERROR: Could not fetch " ++ url ++ ": " ++ exn_str e)
  | KeyError | OtherException =>
      ret ("ERROR: Unexpected error while processing " ++ url ++ ": " ++ exn_str e)
  end.

Definition _run (url : string) : M W string :=
  try_except (fetch url) (on_error url).

End Run.

End WebPageFetcherTool.

(** ** The store client of [backend/database.py] *)

Module Database.

(** How importing the module ends: with the client bound to [supabase], with
    the [ValueError] of the module body, or with whatever [create_client]
    raised. *)
Inductive import_outcome (Client : Type) : Type :=
| Imported (supabase : Client)
| ValueError (msg : string)
| CreateClientRaised (e : exn).
Arguments Imported {Client} supabase.
Arguments ValueError {Client} msg.
Arguments CreateClientRaised {Client} e.

(** [not v] for the [Optional[str]] that [os.getenv] returns. *)
Definition unset (v : option string) : bool :=
  match v with
  | None => true
  | Some s => String.eqb s ""
  end.

Definition credentials_missing : string :=
  "SUPABASE_URL and SUPABASE_ANON_KEY must be set in environment. "
  ++ "Check your .env file.".

Section ModuleBody.

Context {Client W : Type}.

(** [supabase.create_client], of the Supabase client library. *)
Variable create_client : string -> string -> W -> result Client * W.

(** The module body; [environ] is the environment once [load_dotenv()] has
    run. *)
Definition import_module (environ : gmap string string) (w : W)
  : import_outcome Client * W :=
  let supabase_url := environ !! "SUPABASE_URL" in
  let supabase_key := environ !! "SUPABASE_ANON_KEY" in
  if unset supabase_url || unset supabase_key then
    (ValueError credentials_missing, w)
  else
    match create_client (default "" supabase_url) (default "" supabase_key) w with
    | (Ok supabase, w') => (Imported supabase, w')
    | (Raise e, w') => (CreateClientRaised e, w')
    end.

(** [get_supabase_client()], given the module attribute [supabase]. *)
Definition get_supabase_client (supabase : Client) : Client := supabase.

End ModuleBody.

End Database.

(** ** The logging set-up of [backend/logging_config.py] *)

Module LoggingConfig.

Definition log_format : string :=
  "%(asctime)s - %(name)s - %(levelname)s - %(message)s".

Section Logging.

(** Paths, the values of the [logging] module's attributes, and the state of
    the file system and of the [logging] module. *)
Context {Path Level F : Type}.

(** [Path(__file__).parent.parent / logs], and [log_dir / log_file]. *)
Variable default_log_dir : Path.
Variable path_join : Path -> string -> Path.

(** The handlers the set-up builds, each with its formatter's format. *)
Inductive handler : Type :=
| StreamHandler (fmt : string)
| FileHandler (path : Path) (fmt : string).

(** [log_dir.mkdir(exist_ok=True)], opening the file of a
    [logging.FileHandler], [getattr(logging, log_level.upper())], and
    [logging.basicConfig(level=..., handlers=..., force=True)]. *)
Variable mkdir : Path -> F -> result unit * F.
Variable open_log_file : Path -> F -> result unit * F.
Variable level_attr : string -> result Level.
Variable basic_config : Level -> list handler -> F -> result unit * F.

(** The calls made to the outside, in the order made. *)
Inductive call : Type :=
| CallMkdir (dir : Path)
| CallOpenLogFile (path : Path)
| CallBasicConfig (level : Level) (handlers : list handler).

(** The module global [_logging_configured], the outside, and the calls. *)
Record world : Type := World {
  _logging_configured : bool;
  ext : F;
  calls : list call
}.

Definition outside (c : call) (op : F -> result unit * F) : M world unit :=
  fun w =>
    let '(r, f1) := op (ext w) in
    (r, World (_logging_configured w) f1 (calls w ++ [c])).

Definition set_configured (b : bool) : M world unit :=
  fun w => (Ok tt, World b (ext w) (calls w)).

Definition lift {A : Type} (r : result A) : M world A := fun w => (r, w).

(** [if log_file:] for the [Optional[str]] argument. *)
Definition file_given (log_file : option string) : bool :=
  match log_file with
  | None => false
  | Some name => negb (String.eqb name "")
  end.

Definition configure_logging
    (log_level : string) (log_file : option string) (log_dir : option Path)
  : M world unit :=
  fun w =>
    if _logging_configured w then ret tt w
    else
      (let log_dir := default default_log_dir log_dir in
       let* _ := if file_given log_file
                 then outside (CallMkdir log_dir) (mkdir log_dir)
                 else ret tt in
       let console_handler := StreamHandler log_format in
       let* handlers :=
         if file_given log_file then
           let path := path_join log_dir (default "" log_file) in
           let* _ := outside (CallOpenLogFile path) (open_log_file path) in
           ret [console_handler; FileHandler path log_format]
         else ret [console_handler] in
       let* level := lift (level_attr log_level) in
       let* _ := outside (CallBasicConfig level handlers)
                         (basic_config level handlers) in
       set_configured true) w.

(** [configure_logging()] with the defaults of its signature. *)
Definition configure_logging_default : M world unit :=
  configure_logging "INFO" (Some "cache.log") None.

(** [get_logger(name)]; the logger is known by its name. *)
Definition get_logger (name : string) : M world string :=
  fun w =>
    (let* _ := if negb (_logging_configured w)
               then configure_logging_default
               else ret tt in
     ret name) w.

Definition set_debug_mode : M world unit :=
  let* _ := set_configured false in
  configure_logging "DEBUG" (Some "cache.log") None.

End Logging.

Arguments handler Path : clear implicits.
Arguments call Path Level : clear implicits.
Arguments world Path Level F : clear implicits.

End LoggingConfig.

(** ** The input validator and the job lifecycle, from the specification

    [backend/crew_runner.py] and [backend/jobs.py] are not among the sources
    at hand; what follows is written from the specification's sections 3,
    4.1, 4.2 and 4.5. *)

Module Validator.

(** A field counts as given when the request holds a truthy value for it. *)
Definition given (inputs : pydict) (field : string) : bool :=
  truthy (dict_get inputs field).

(** Modelled from the spec: [validate_crew_inputs] of the missing
    [backend/crew_runner.py], after section 4.1: a course name, university
    name or course URL; or a book title with its author, or an ISBN; or a
    book file; or a book URL. The field names are those of the rejection
    message in [submit_job], the ISBN under the key [isbn]. *)
Definition validate_crew_inputs (inputs : pydict) : bool :=
  (given inputs "course_name" || given inputs "university_name"
   || given inputs "course_url")
  || ((given inputs "book_title" && given inputs "book_author")
      || given inputs "isbn")
  || given inputs "book_pdf_path"
  || given inputs "book_url".

End Validator.

Module Orchestrator.

Inductive status : Type := pending | running | completed | failed.

#[global] Instance status_eq_dec : EqDecision status.
Proof. solve_decision. Defined.

Definition terminal (st : status) : bool :=
  match st with
  | completed | failed => true
  | pending | running => false
  end.

(** Modelled from the spec: the Resource Record of section 3, five strings
    the orchestrator forwards without reading. *)
Record resource_record : Type := ResourceRecord {
  r_type : string;
  r_title : string;
  r_url : string;
  r_source : string;
  r_description : string
}.

(** Modelled from the spec: the Job Record of section 3 (the table behind
    the missing [backend/jobs.py]). Timestamps are ticks of the system clock. *)
Record job_record : Type := JobRecord {
  id : string;
  job_status : status;
  inputs : pydict;
  status_message : option string;
  search_title : option string;
  results : option (list resource_record);
  raw_output : option string;
  error : option string;
  metadata : option (gmap string string);
  created_at : nat;
  completed_at : option nat
}.

(** Modelled from the spec: the Job Store Adapter of section 4.5, a keyed
    store with point upsert and point lookup. *)
Definition put (record : job_record) (store : gmap string job_record)
  : gmap string job_record :=
  <[ id record := record ]> store.

Definition get (job_id : string) (store : gmap string job_record)
  : option job_record :=
  store !! job_id.

(** Modelled from the spec: the store errors of section 7. The persistence
    layer may be unavailable at any write; how the store answers each write
    is not the orchestrator's doing, so it comes with the event. *)
Inductive store_answer : Type := Stored | StoreError.

(** Modelled from the spec: a write through the Job Store Adapter that may
    fail; a refused write leaves the store as it was (each write is one
    atomic record replacement, section 5). *)
Definition try_put (answer : store_answer) (record : job_record)
    (store : gmap string job_record) : option (gmap string job_record) :=
  match answer with
  | Stored => Some (put record store)
  | StoreError => None
  end.

(** What the Resource Discovery Engine hands back: a title, the results and
    an optional raw trace, or a fault with its description. *)
Inductive engine_result : Type :=
| EngineOk (title : string) (found : list resource_record) (raw : option string)
| EngineFault (description : string).

(** The orchestrator and its background units. [scheduled] holds the ids
    dispatched and not yet started, [executing] those inside the engine call;
    [notified] lists the notifier calls with the flag each returned. *)
Record sys : Type := Sys {
  store : gmap string job_record;
  clock : nat;
  next_id : nat;
  scheduled : gset string;
  executing : gset string;
  notified : list (string * bool)
}.

Definition init : sys := Sys ∅ 0 0 ∅ ∅ [].

(** Modelled from the spec: [create(inputs)] of section 4.2. A fresh id, a
    record with status [pending] and [created_at = now], one store write,
    and the background unit scheduled without waiting for it. When the
    store refuses the write no id is returned, no record exists and nothing
    is scheduled. *)
Definition create (ins : pydict) (wrote : store_answer) (s : sys)
  : option string * sys :=
  let job_id := pretty (next_id s) in
  let record :=
    JobRecord job_id pending ins None None None None None None (clock s) None in
  match try_put wrote record (store s) with
  | Some store' =>
      (Some job_id,
       Sys store' (S (clock s)) (S (next_id s))
           ({[ job_id ]} ∪ scheduled s) (executing s) (notified s))
  | None =>
      (None,
       Sys (store s) (S (clock s)) (S (next_id s))
           (scheduled s) (executing s) (notified s))
  end.

(** Modelled from the spec: the description a record marked [failed] after
    a store error carries in [error]; the spec does not give its text. *)
Definition store_error : string := "store write failed".

(** Modelled from the spec: section 7, a store error during a background
    status update. The update has failed and the job ends there; marking
    the record [failed] is still tried, with one more write, and if the
    store refuses that one too the record stays as it was: the job is
    stuck. *)
Definition mark_failed (r : job_record) (marked : store_answer) (s : sys)
  : gmap string job_record :=
  let r' :=
    JobRecord (id r) failed (inputs r) (status_message r) (search_title r)
              (results r) (raw_output r) (Some store_error) (metadata r)
              (created_at r) (Some (clock s)) in
  match try_put marked r' (store s) with
  | Some store' => store'
  | None => store s
  end.

(** Modelled from the spec: the first half of [execute(job_id, inputs)]: the
    record goes to [running], with a progress note, before the engine is
    invoked. It runs once, for a unit that was scheduled. If the store
    refuses the write, the unit ends without invoking the engine, after
    [mark_failed]. *)
Definition start (job_id : string) (wrote marked : store_answer) (s : sys)
  : sys :=
  match get job_id (store s) with
  | Some r =>
      if bool_decide (job_id ∈ scheduled s) then
        let r' :=
          JobRecord (id r) running (inputs r) (Some "running") (search_title r)
                    (results r) (raw_output r) (error r) (metadata r)
                    (created_at r) (completed_at r) in
        match try_put wrote r' (store s) with
        | Some store' =>
            Sys store' (S (clock s)) (next_id s)
                (scheduled s ∖ {[ job_id ]}) ({[ job_id ]} ∪ executing s)
                (notified s)
        | None =>
            Sys (mark_failed r marked s) (S (clock s)) (next_id s)
                (scheduled s ∖ {[ job_id ]}) (executing s) (notified s)
        end
      else s
  | None => s
  end.

(** Modelled from the spec: the second half of [execute]: on engine success
    the record takes the title, the results and the raw output and becomes
    [completed], then the notifier is called and the flag it returns
    ([sent]) is only logged; on an engine fault the record becomes [failed]
    with the description and nothing is sent. Either way
    [completed_at = now]. If the store refuses the write of the terminal
    record, the unit ends after [mark_failed], and nothing is sent. *)
Definition finish (job_id : string) (outcome : engine_result) (sent : bool)
    (wrote marked : store_answer) (s : sys) : sys :=
  match get job_id (store s) with
  | Some r =>
      if bool_decide (job_id ∈ executing s) then
        match outcome with
        | EngineOk title found raw =>
            let r' :=
              JobRecord (id r) completed (inputs r) (status_message r) (Some title)
                        (Some found) raw (error r) (metadata r)
                        (created_at r) (Some (clock s)) in
            match try_put wrote r' (store s) with
            | Some store' =>
                Sys store' (S (clock s)) (next_id s)
                    (scheduled s) (executing s ∖ {[ job_id ]})
                    (notified s ++ [(job_id, sent)])
            | None =>
                Sys (mark_failed r marked s) (S (clock s)) (next_id s)
                    (scheduled s) (executing s ∖ {[ job_id ]}) (notified s)
            end
        | EngineFault description =>
            let r' :=
              JobRecord (id r) failed (inputs r) (status_message r) (search_title r)
                        (results r) (raw_output r) (Some description) (metadata r)
                        (created_at r) (Some (clock s)) in
            match try_put wrote r' (store s) with
            | Some store' =>
                Sys store' (S (clock s)) (next_id s)
                    (scheduled s) (executing s ∖ {[ job_id ]}) (notified s)
            | None =>
                Sys (mark_failed r marked s) (S (clock s)) (next_id s)
                    (scheduled s) (executing s ∖ {[ job_id ]}) (notified s)
            end
        end
      else s
  | None => s
  end.

(** What can happen next: a submission, a scheduled unit starting, an engine
    call coming back, or a client polling (a read, which changes nothing).
    The events that write carry the store's answer to the write and, for
    the background updates, its answer to the [mark_failed] write that
    follows a refused one. *)
Inductive event : Type :=
| Submit (ins : pydict) (wrote : store_answer)
| Start (job_id : string) (wrote marked : store_answer)
| Finish (job_id : string) (outcome : engine_result) (sent : bool)
         (wrote marked : store_answer)
| Poll (job_id : string).

Definition step (s : sys) (ev : event) : sys :=
  match ev with
  | Submit ins wrote => snd (create ins wrote s)
  | Start job_id wrote marked => start job_id wrote marked s
  | Finish job_id outcome sent wrote marked =>
      finish job_id outcome sent wrote marked s
  | Poll _ => s
  end.

(** The states the system goes through, the starting one first. *)
Fixpoint trace (s : sys) (evs : list event) : list sys :=
  match evs with
  | [] => [s]
  | ev :: rest => s :: trace (step s ev) rest
  end.

Definition run (s : sys) (evs : list event) : sys := foldl step s evs.

(** The status a read of [job_id] shows in state [s], if the job exists. *)
Definition observe (job_id : string) (s : sys) : option status :=
  job_status <$> get job_id (store s).

(** A sequence with runs of equal neighbours collapsed to one element. *)
Fixpoint collapse (l : list status) : list status :=
  match l with
  | [] => []
  | a :: rest =>
      match rest with
      | [] => [a]
      | b :: _ => if bool_decide (a = b) then collapse rest else a :: collapse rest
      end
  end.

(** The statuses of [job_id] over time along a run from [s]: one reading per
    state from the job's creation on, repeated readings collapsed. *)
Definition status_history (job_id : string) (s : sys) (evs : list event)
  : list status :=
  collapse (omap (observe job_id) (trace s evs)).

End Orchestrator.

(** ** An in-memory job table, for running the handlers on concrete requests *)

Module InMemory.

(** Modelled from the spec: the job table behind the missing
    [backend/jobs.py], one row per job id, with the point lookup and the
    creating write of section 4.5. A new row has status [pending]. *)
Definition get_job (job_id : string) (table : gmap string pydict)
  : result (option pydict) * gmap string pydict :=
  (Ok (table !! job_id), table).

Definition create_job (inputs : pydict) (table : gmap string pydict)
  : result string * gmap string pydict :=
  let job_id := pretty (size table) in
  (Ok job_id,
   <[ job_id := {[ "id" := PStr job_id;
                   "status" := PStr "pending";
                   "inputs" := PDict inputs;
                   "created_at" := PInt (Z.of_nat (size table)) ]} ]> table).

(** A store whose write fails. *)
Definition create_job_down (inputs : pydict) (table : gmap string pydict)
  : result string * gmap string pydict :=
  (Raise (Exn OtherException "connection refused"), table).

(** A dispatch that returns at once and leaves the table as it is. *)
Definition run_crew_async (job_id : string) (inputs : pydict)
    (table : gmap string pydict) : result unit * gmap string pydict :=
  (Ok tt, table).

Definition probe_down (table : gmap string pydict)
  : result unit * gmap string pydict :=
  (Raise (Exn OtherException "connection refused"), table).

(** A stand-in for the text of lists and dicts. *)
Definition repr_compound (v : pyval) : string := "[...]".

Definition completed_row : pydict :=
  {[ "id" := PStr "7";
     "status" := PStr "completed";
     "search_title" := PStr "Algorithms Resources";
     "results" := PList [];
     "created_at" := PStr "2025-01-01T00:00:00";
     "completed_at" := PStr "2025-01-01T00:03:00" ]}.

Definition running_row : pydict :=
  {[ "id" := PStr "8";
     "status" := PStr "running";
     "created_at" := PStr "2025-01-01T00:05:00" ]}.

Definition table0 : gmap string pydict :=
  {[ "7" := completed_row; "8" := running_row ]}.

Definition course_inputs : pydict :=
  {[ "course_name" := PStr "Intro to Algorithms"; "book_title" := PNone ]}.

Definition empty_inputs : pydict :=
  {[ "course_name" := PNone; "book_title" := PStr "" ]}.

Definition world0 : Main.world (gmap string pydict) := Main.World table0 [].

(** A delivery service that is down, and the process state around the
    notifier for a given environment. *)
Definition emails_send_down (params : pydict) (u : unit) : result pydict * unit :=
  (Raise (Exn OtherException "503 Service Unavailable"), tt).

Definition mail_world (env : gmap string string) : EmailService.world unit :=
  EmailService.World tt env None [].

(** A console that takes every line, and one whose stream has been closed. *)
Definition console_ok (line : string) (u : unit) : result unit * unit := (Ok tt, tt).

Definition console_closed (line : string) (u : unit) : result unit * unit :=
  (Raise (Exn OtherException "I/O operation on closed file."), tt).

Definition one_resource : pydict :=
  {[ "type" := PStr "Textbook";
     "title" := PStr "Introduction to Algorithms";
     "url" := PStr "https://example.org/clrs" ]}.

(** A site that answers every request with the same response, or not at all. *)
Definition site (response : WebPageFetcherTool.http_response)
    (url : string) (timeout : Z) (headers : gmap string string)
  : M unit WebPageFetcherTool.http_response :=
  ret response.

Definition site_timeout (url : string) (timeout : Z) (headers : gmap string string)
  : M unit WebPageFetcherTool.http_response :=
  raise (Exn RequestsTimeout "Read timed out. (read timeout=15)").

Definition plain_text (html : string) : result string := Ok html.

(** A parser that fails on every page. *)
Definition parser_down (html : string) : result string :=
  Raise (Exn OtherException "bad markup").

(** U+00A0 and U+2003 in UTF-8. *)
Definition no_break_space : string :=
  String (Ascii.ascii_of_nat 194) (String (Ascii.ascii_of_nat 160) EmptyString).

Definition em_space : string :=
  String (Ascii.ascii_of_nat 226)
    (String (Ascii.ascii_of_nat 128)
       (String (Ascii.ascii_of_nat 131) EmptyString)).

(** U+200B, which [str.isspace] does not accept. *)
Definition zero_width_space : string :=
  String (Ascii.ascii_of_nat 226)
    (String (Ascii.ascii_of_nat 128)
       (String (Ascii.ascii_of_nat 139) EmptyString)).

(** A delivery service that accepts every message. *)
Definition emails_send_ok (params : pydict) (u : unit) : result pydict * unit :=
  (Ok {[ "id" := PStr "msg_1" ]}, tt).

(** A file system that accepts every call, paths as strings, and the level
    names the set-up is used with. *)
Definition fs_ok (path : string) (u : unit) : result unit * unit := (Ok tt, tt).

Definition slash (dir name : string) : string := dir ++ "/" ++ name.

Definition level_names (log_level : string) : result Z :=
  if String.eqb log_level "INFO" then Ok 20%Z
  else if String.eqb log_level "DEBUG" then Ok 10%Z
  else Raise (Exn OtherException
                ("module 'logging' has no attribute '" ++ log_level ++ "'")).

Definition basic_config_ok (level : Z) (handlers : list (LoggingConfig.handler string))
    (u : unit) : result unit * unit :=
  (Ok tt, tt).

Definition fresh_logging : LoggingConfig.world string Z unit :=
  LoggingConfig.World false tt [].

(** A client factory that returns the pair it was given. *)
Definition create_client_ok (url key : string) (u : unit)
  : result (string * string) * unit :=
  (Ok (url, key), tt).

(** A dispatch that cannot start its worker. *)
Definition run_crew_async_down (job_id : string) (inputs : pydict)
    (table : gmap string pydict) : result unit * gmap string pydict :=
  (Raise (Exn OtherException "can't start new thread"), table).

(** A table with an empty row and a row that lacks its creation time. *)
Definition odd_table : gmap string pydict :=
  {[ "e" := ∅;
     "n" := {[ "id" := PStr "n"; "status" := PStr "running" ]} ]}.

Definition odd_world : Main.world (gmap string pydict) := Main.World odd_table [].

(** One job from submission to completion, and the events a stale worker
    and a polling client may add afterwards. *)
Definition completed_run : list Orchestrator.event :=
  [ Orchestrator.Submit course_inputs Orchestrator.Stored;
    Orchestrator.Start "0" Orchestrator.Stored Orchestrator.Stored;
    Orchestrator.Poll "0";
    Orchestrator.Finish "0"
      (Orchestrator.EngineOk "Algorithms Resources" [] None) true
      Orchestrator.Stored Orchestrator.Stored ].

Definition late_events : list Orchestrator.event :=
  [ Orchestrator.Start "0" Orchestrator.Stored Orchestrator.Stored;
    Orchestrator.Finish "0" (Orchestrator.EngineFault "network timeout") false
      Orchestrator.Stored Orchestrator.Stored;
    Orchestrator.Poll "0" ].

Definition failed_run : list Orchestrator.event :=
  [ Orchestrator.Submit course_inputs Orchestrator.Stored;
    Orchestrator.Start "0" Orchestrator.Stored Orchestrator.Stored;
    Orchestrator.Finish "0" (Orchestrator.EngineFault "network timeout") false
      Orchestrator.Stored Orchestrator.Stored ].

(** A job whose update to [running] the store refuses, while the write that
    marks it [failed] goes through; and one for which both are refused. *)
Definition aborted_run : list Orchestrator.event :=
  [ Orchestrator.Submit course_inputs Orchestrator.Stored;
    Orchestrator.Poll "0";
    Orchestrator.Start "0" Orchestrator.StoreError Orchestrator.Stored;
    Orchestrator.Poll "0" ].

Definition stuck_run : list Orchestrator.event :=
  [ Orchestrator.Submit course_inputs Orchestrator.Stored;
    Orchestrator.Start "0" Orchestrator.StoreError Orchestrator.StoreError;
    Orchestrator.Start "0" Orchestrator.Stored Orchestrator.Stored;
    Orchestrator.Poll "0" ].

End InMemory.

(** * Properties *)

(** ** The request handlers *)

Module MainProps.

Import Main.

Section Props.

Context {W : Type}.
Variable validate_crew_inputs : pydict -> bool.
Variable create_job : pydict -> W -> result string * W.
Variable run_crew_async : string -> pydict -> W -> result unit * W.
Variable get_job : string -> W -> result (option pydict) * W.
Variable probe : W -> result unit * W.
Variable repr_compound : pyval -> string.

Lemma eq_str_true (v : pyval) (s : string) :
  eq_str v s = true <-> v = PStr s.
Proof.
  destruct v; simpl; try (split; [discriminate | intros [=]]).
  rewrite String.eqb_eq. split; [intros -> | intros [= ->]]; reflexivity.
Qed.

Lemma eq_str_false (v : pyval) (s : string) :
  v <> PStr s -> eq_str v s = false.
Proof.
  intros Hne. destruct (eq_str v s) eqn:E; [|reflexivity].
  apply eq_str_true in E. contradiction.
Qed.

Lemma no_job_status (job : pydict) (st : pyval) :
  job !! "status" = Some st -> no_job (Some job) = false.
Proof.
  intros Hst. simpl. apply bool_decide_eq_false. intros ->.
  rewrite lookup_empty in Hst. discriminate.
Qed.

(** C3. When the validator returns false, [submit_job] raises the 400
    error and the world is left exactly as it was: no call to [create_job]
    or [run_crew_async] is logged, no job id is returned. *)
Theorem submit_job_rejects_invalid (inputs : pydict) (w : world W) :
  validate_crew_inputs inputs = false ->
  submit_job validate_crew_inputs create_job run_crew_async inputs w
  = (HTTPException 400 invalid_inputs_detail, w).
Proof.
  intros Hv. unfold submit_job. rewrite Hv. reflexivity.
Qed.

(** C4. When the validator accepts the inputs, [create_job] returns a job
    id and the dispatch call returns, [submit_job] returns a payload whose
    keys are exactly [job_id], [status] and [message], with the id that
    [create_job] gave and the literal status [pending], whatever state [e2]
    the dispatched execution has already brought the store to. *)
Theorem submit_job_returns_pending
    (inputs : pydict) (w : world W) (job_id : string) (e1 e2 : W) :
  validate_crew_inputs inputs = true ->
  create_job inputs (ext w) = (Ok job_id, e1) ->
  run_crew_async job_id inputs e1 = (Ok tt, e2) ->
  exists (payload : pydict) (message : string),
    submit_job validate_crew_inputs create_job run_crew_async inputs w
    = (Returned payload,
       World e2 (calls w ++ [CallCreateJob inputs]
                         ++ [CallRunCrewAsync job_id inputs]))
    /\ dom payload = {[ "job_id"; "status"; "message" ]}
    /\ payload !! "job_id" = Some (PStr job_id)
    /\ payload !! "status" = Some (PStr "pending")
    /\ payload !! "message" = Some (PStr message).
Proof.
  intros Hv Hc Hr. unfold submit_job. rewrite Hv. simpl.
  rewrite Hc. simpl. rewrite Hr.
  eexists _, _. split.
  - unfold logged. simpl. rewrite <- app_assoc. reflexivity.
  - split; [|by simplify_map_eq].
    rewrite !dom_insert_L, dom_singleton_L. set_solver.
Qed.

(** X2. The same [except] clause also catches a dispatch call that raises:
    the answer is then the 500 error, although the job has been persisted. *)
Lemma submit_job_dispatch_error
    (inputs : pydict) (w : world W) (job_id : string) (e : exn) (e1 e2 : W) :
  validate_crew_inputs inputs = true ->
  create_job inputs (ext w) = (Ok job_id, e1) ->
  run_crew_async job_id inputs e1 = (Raise e, e2) ->
  submit_job validate_crew_inputs create_job run_crew_async inputs w
  = (job_creation_failed e,
     World e2 (calls w ++ [CallCreateJob inputs]
                       ++ [CallRunCrewAsync job_id inputs])).
Proof.
  intros Hv Hc Hr. unfold submit_job. rewrite Hv. simpl.
  rewrite Hc. simpl. rewrite Hr.
  unfold logged. simpl. rewrite <- app_assoc. reflexivity.
Qed.

(** C5. When [create_job] raises, [submit_job] raises the 500 error with
    the text of the exception; no job id is returned and the dispatch is
    never called. *)
Theorem submit_job_store_error
    (inputs : pydict) (w : world W) (e : exn) (e1 : W) :
  validate_crew_inputs inputs = true ->
  create_job inputs (ext w) = (Raise e, e1) ->
  submit_job validate_crew_inputs create_job run_crew_async inputs w
  = (HTTPException 500 {[ "error" := "Job creation failed";
                          "message" := exn_str e ]},
     World e1 (calls w ++ [CallCreateJob inputs])).
Proof.
  intros Hv Hc. unfold submit_job. rewrite Hv. simpl. rewrite Hc. reflexivity.
Qed.

(** The keys of a job row that the projection reads with [job.get]. *)
Definition optional_fields : list string :=
  [ "status_message"; "search_title"; "results"; "raw_output"; "error";
    "metadata"; "completed_at" ].

Lemma job_projection_fields (job : pydict) (id st created : pyval) :
  job !! "id" = Some id ->
  job !! "status" = Some st ->
  job !! "created_at" = Some created ->
  exists payload : pydict,
    job_projection job = Ok payload
    /\ payload !! "job_id" = Some id
    /\ payload !! "status" = Some st
    /\ payload !! "created_at" = Some created
    /\ Forall (fun k => payload !! k = Some (dict_get job k)) optional_fields.
Proof.
  intros Hid Hst Hcr. unfold job_projection, dict_item.
  rewrite Hid, Hst, Hcr. eexists. split; [reflexivity|].
  repeat split; [by simplify_map_eq ..|].
  unfold optional_fields. repeat constructor; by simplify_map_eq.
Qed.

(** C1. For a stored row whose status is [completed], the shareable-results
    endpoint gives exactly what the status endpoint gives (response and
    world). For a stored row with any other status the shareable-results
    endpoint raises 404, while the status endpoint returns the projection of
    the row, each field as stored (a stored row holds its [id] and its
    [created_at]). *)
Theorem shareable_results_match_status
    (job_id : string) (w : world W) (job : pydict) (e1 : W) :
  get_job job_id (ext w) = (Ok (Some job), e1) ->
  (job !! "status" = Some (PStr "completed") ->
   get_shareable_results get_job repr_compound job_id w
   = get_job_status get_job job_id w)
  /\ (forall st : pyval,
        job !! "status" = Some st -> st <> PStr "completed" ->
        exists detail,
          get_shareable_results get_job repr_compound job_id w
          = (HTTPException 404 detail, logged (CallGetJob job_id) w e1))
  /\ (forall id st created : pyval,
        job !! "id" = Some id ->
        job !! "status" = Some st ->
        job !! "created_at" = Some created ->
        exists payload : pydict,
          get_job_status get_job job_id w
          = (Returned payload, logged (CallGetJob job_id) w e1)
          /\ payload !! "job_id" = Some id
          /\ payload !! "status" = Some st
          /\ payload !! "created_at" = Some created
          /\ Forall (fun k => payload !! k = Some (dict_get job k))
                    optional_fields).
Proof.
  intros Hg. split; [|split].
  - intros Hst. unfold get_shareable_results, get_job_status.
    rewrite Hg, (no_job_status job _ Hst). simpl.
    unfold dict_item at 1. rewrite Hst. simpl. reflexivity.
  - intros st Hst Hne. unfold get_shareable_results.
    rewrite Hg, (no_job_status job _ Hst). simpl.
    unfold dict_item. rewrite Hst, (eq_str_false _ _ Hne). simpl.
    eexists. reflexivity.
  - intros id st created Hid Hst Hcr. unfold get_job_status.
    rewrite Hg, (no_job_status job _ Hst). simpl.
    destruct (job_projection_fields job id st created Hid Hst Hcr)
      as (payload & Hp & Hfields).
    exists payload. rewrite Hp. split; [reflexivity | exact Hfields].
Qed.

(** C8. When the lookup finds no record, the status endpoint and the
    shareable-results endpoint both raise 404, and each leaves the world as
    the lookup left it: the lookup is the only call made. *)
Theorem missing_job_not_found (job_id : string) (w : world W) (e1 : W) :
  get_job job_id (ext w) = (Ok None, e1) ->
  (exists detail,
     get_job_status get_job job_id w
     = (HTTPException 404 detail, World e1 (calls w ++ [CallGetJob job_id])))
  /\ (exists detail,
        get_shareable_results get_job repr_compound job_id w
        = (HTTPException 404 detail, World e1 (calls w ++ [CallGetJob job_id]))).
Proof.
  intros Hg. unfold get_job_status, get_shareable_results. rewrite Hg. simpl.
  split; eexists; reflexivity.
Qed.

(** C9. Whatever the connectivity probe does, [health_check] returns a
    payload with status [healthy]; a probe that raises only shows as the
    text [error: ...] in the [database] field. *)
Theorem health_check_never_fails (w : world W) :
  exists payload : pydict,
    health_check probe w
    = (Returned payload, World (probe (ext w)).2 (calls w ++ [CallProbe]))
    /\ payload !! "status" = Some (PStr "healthy")
    /\ payload !! "version" = Some (PStr "0.1.0")
    /\ payload !! "database"
       = Some (PStr match (probe (ext w)).1 with
                    | Ok _ => "connected"
                    | Raise e => "error: " ++ exn_str e
                    end).
Proof.
  unfold health_check. destruct (probe (ext w)) as [r e1]. simpl.
  eexists. split; [reflexivity|]. by simplify_map_eq.
Qed.

End Props.

(** *** The handlers on concrete requests *)

Lemma submit_job_rejects_invalid_witness :
  submit_job Validator.validate_crew_inputs InMemory.create_job
             InMemory.run_crew_async InMemory.empty_inputs InMemory.world0
  = (HTTPException 400 invalid_inputs_detail, InMemory.world0).
Proof.
  apply (submit_job_rejects_invalid Validator.validate_crew_inputs
           InMemory.create_job InMemory.run_crew_async
           InMemory.empty_inputs InMemory.world0).
  reflexivity.
Defined.

Lemma submit_job_returns_pending_witness :
  exists (payload : pydict) (message : string),
    submit_job Validator.validate_crew_inputs InMemory.create_job
               InMemory.run_crew_async InMemory.course_inputs InMemory.world0
    = (Returned payload,
       World (InMemory.create_job InMemory.course_inputs InMemory.table0).2
             ([] ++ [CallCreateJob InMemory.course_inputs]
                 ++ [CallRunCrewAsync "2" InMemory.course_inputs]))
    /\ dom payload = {[ "job_id"; "status"; "message" ]}
    /\ payload !! "job_id" = Some (PStr "2")
    /\ payload !! "status" = Some (PStr "pending")
    /\ payload !! "message" = Some (PStr message).
Proof.
  apply (submit_job_returns_pending Validator.validate_crew_inputs
           InMemory.create_job InMemory.run_crew_async
           InMemory.course_inputs InMemory.world0 "2"
           (InMemory.create_job InMemory.course_inputs InMemory.table0).2
           (InMemory.create_job InMemory.course_inputs InMemory.table0).2);
    reflexivity.
Defined.

(** The validator accepts the inputs and [create_job] persists the job under
    the id 2, yet the answer is not the pending payload: the dispatch call
    raises inside the same [try] block, and [submit_job] answers with the
    500 error while the row stays in the table. *)
Lemma submit_job_persisted_then_500 :
  Validator.validate_crew_inputs InMemory.course_inputs = true
  /\ (InMemory.create_job InMemory.course_inputs InMemory.table0).1 = Ok "2"
  /\ (submit_job Validator.validate_crew_inputs InMemory.create_job
                 InMemory.run_crew_async_down InMemory.course_inputs
                 InMemory.world0).1
     = HTTPException 500 {[ "error" := "Job creation failed";
                            "message" := "can't start new thread" ]}
  /\ (dict_get_default
        (default ∅
           (ext (submit_job Validator.validate_crew_inputs InMemory.create_job
                            InMemory.run_crew_async_down InMemory.course_inputs
                            InMemory.world0).2
            !! "2"))
        "status" PNone)
     = PStr "pending".
Proof. repeat split; reflexivity. Qed.

Lemma submit_job_store_error_witness :
  submit_job Validator.validate_crew_inputs InMemory.create_job_down
             InMemory.run_crew_async InMemory.course_inputs InMemory.world0
  = (HTTPException 500 {[ "error" := "Job creation failed";
                          "message" := "connection refused" ]},
     World InMemory.table0 ([] ++ [CallCreateJob InMemory.course_inputs])).
Proof.
  apply (submit_job_store_error Validator.validate_crew_inputs
           InMemory.create_job_down InMemory.run_crew_async
           InMemory.course_inputs InMemory.world0
           (Exn OtherException "connection refused") InMemory.table0);
    reflexivity.
Defined.

Lemma shareable_results_match_status_witness :
  get_shareable_results InMemory.get_job InMemory.repr_compound "7" InMemory.world0
  = get_job_status InMemory.get_job "7" InMemory.world0
  /\ (exists detail,
        get_shareable_results InMemory.get_job InMemory.repr_compound "8" InMemory.world0
        = (HTTPException 404 detail, logged (CallGetJob "8") InMemory.world0 InMemory.table0))
  /\ (exists payload : pydict,
        get_job_status InMemory.get_job "8" InMemory.world0
        = (Returned payload, logged (CallGetJob "8") InMemory.world0 InMemory.table0)
        /\ payload !! "status" = Some (PStr "running")).
Proof.
  assert (H7 : InMemory.get_job "7" (ext InMemory.world0)
               = (Ok (Some InMemory.completed_row), InMemory.table0))
    by (reflexivity).
  assert (H8 : InMemory.get_job "8" (ext InMemory.world0)
               = (Ok (Some InMemory.running_row), InMemory.table0))
    by (reflexivity).
  pose proof (shareable_results_match_status InMemory.get_job
                InMemory.repr_compound "7" InMemory.world0 _ _ H7) as (Hsame & _ & _).
  pose proof (shareable_results_match_status InMemory.get_job
                InMemory.repr_compound "8" InMemory.world0 _ _ H8) as (_ & Hnot & Hstatus).
  split; [|split].
  - apply Hsame. reflexivity.
  - apply (Hnot (PStr "running")); [reflexivity | discriminate].
  - destruct (Hstatus (PStr "8") (PStr "running") (PStr "2025-01-01T00:05:00"))
      as (payload & Hr & _ & Hst & _); [reflexivity ..|].
    exists payload. split; [exact Hr | exact Hst].
Defined.

Lemma missing_job_not_found_witness :
  (exists detail,
     get_job_status InMemory.get_job "9" InMemory.world0
     = (HTTPException 404 detail, World InMemory.table0 ([] ++ [CallGetJob "9"])))
  /\ (exists detail,
        get_shareable_results InMemory.get_job InMemory.repr_compound "9" InMemory.world0
        = (HTTPException 404 detail, World InMemory.table0 ([] ++ [CallGetJob "9"]))).
Proof.
  apply (missing_job_not_found InMemory.get_job InMemory.repr_compound
           "9" InMemory.world0 InMemory.table0).
  reflexivity.
Defined.

(** A probe that raises still yields a healthy answer. *)
Example health_check_probe_down :
  health_check InMemory.probe_down InMemory.world0
  = (Returned {[ "status" := PStr "healthy";
                 "version" := PStr "0.1.0";
                 "database" := PStr "error: connection refused" ]},
     World InMemory.table0 [CallProbe]).
Proof. reflexivity. Qed.

End MainProps.

(** ** The completion e-mail *)

Module EmailProps.

Import EmailService.

(** [needle] occurs in [hay]. *)
Definition contains (needle hay : string) : Prop :=
  exists pre post : string, hay = pre ++ needle ++ post.

Lemma append_cons (c : Ascii.ascii) (s t : string) :
  String c s ++ t = String c (s ++ t).
Proof. reflexivity. Qed.

Lemma append_nil_r (s : string) : s ++ "" = s.
Proof.
  induction s as [|c s IH]; [reflexivity | by rewrite append_cons, IH].
Qed.

Lemma append_assoc (a b c : string) : (a ++ b) ++ c = a ++ b ++ c.
Proof.
  induction a as [|x a IH]; [reflexivity | by rewrite !append_cons, IH].
Qed.

Lemma contains_refl (x : string) : contains x x.
Proof. exists "", "". by rewrite append_nil_r. Qed.

Lemma contains_here (x rest : string) : contains x (x ++ rest).
Proof. exists "", rest. reflexivity. Qed.

Lemma contains_app_r (x a b : string) : contains x b -> contains x (a ++ b).
Proof.
  intros (pre & post & ->). exists (a ++ pre), post. by rewrite append_assoc.
Qed.

Lemma contains_app_l (x a b : string) : contains x a -> contains x (a ++ b).
Proof.
  intros (pre & post & ->). exists pre, (post ++ b).
  by rewrite !append_assoc.
Qed.

Lemma contains_trans (x y z : string) :
  contains x y -> contains y z -> contains x z.
Proof.
  intros (p1 & q1 & ->) (p2 & q2 & ->).
  exists (p2 ++ p1), (q1 ++ q2). by rewrite !append_assoc.
Qed.

(** Finds the needle among the pieces of a chain [a ++ b ++ c ++ ...]. *)
Ltac find_piece :=
  first [ apply contains_refl
        | apply contains_here
        | apply contains_app_r; find_piece ].

Section Props.

Context {W : Type}.
Variable emails_send : pydict -> W -> result pydict * W.
Variable stdout_write : string -> W -> result unit * W.
Variable repr_compound : pyval -> string.

Lemma foldl_keeps (acc x : string) (resources : list pydict) :
  contains x acc ->
  contains x (foldl (fun acc resource => acc ++ resource_html repr_compound resource)
                    acc resources).
Proof.
  revert acc. induction resources as [|r rest IH]; intros acc Hx; simpl.
  - exact Hx.
  - apply IH. by apply contains_app_l.
Qed.

Lemma foldl_has_each (acc : string) (resources : list pydict) (resource : pydict) :
  resource ∈ resources ->
  contains (resource_html repr_compound resource)
           (foldl (fun acc resource => acc ++ resource_html repr_compound resource)
                  acc resources).
Proof.
  revert acc. induction resources as [|r rest IH]; intros acc Hin.
  - by apply elem_of_nil in Hin.
  - apply elem_of_cons in Hin as [-> | Hin]; simpl.
    + apply foldl_keeps, contains_app_r, contains_refl.
    + by apply IH.
Qed.

(** The five fields of a resource as the e-mail prints them. *)
Definition shown_fields (resource : pydict) : list string :=
  [ py_str repr_compound (dict_get_default resource "type" (PStr "Resource"));
    py_str repr_compound (dict_get_default resource "title" (PStr "Untitled"));
    py_str repr_compound (dict_get_default resource "url" (PStr "#"));
    py_str repr_compound (dict_get_default resource "source" (PStr "Unknown")) ]
  ++ (if truthy (dict_get_default resource "description" (PStr ""))
      then [ py_str repr_compound
               (dict_get_default resource "description" (PStr "")) ]
      else []).

Lemma resource_html_shows (resource : pydict) (field : string) :
  field ∈ shown_fields resource ->
  contains field (resource_html repr_compound resource).
Proof.
  unfold shown_fields, resource_html. intros Hin.
  apply elem_of_app in Hin as [Hin | Hin].
  - repeat (apply elem_of_cons in Hin as [-> | Hin]); [find_piece ..|].
    by apply elem_of_nil in Hin.
  - destruct (truthy _); [|by apply elem_of_nil in Hin].
    apply elem_of_cons in Hin as [-> | Hin]; [|by apply elem_of_nil in Hin].
    do 11 apply contains_app_r. apply contains_app_l. find_piece.
Qed.

(** C7. The message built for a title, a list of results and a job id: the
    subject holds the title; the HTML body holds the title, the decimal
    count of the results and the job id, and for every result the fields the
    loop prints (type, title, url, source, and the description when there is
    one). Subject and body are what is handed to the delivery service. *)
Theorem email_message_contents
    (from_email to_email search_title : string) (resources : list pydict)
    (job_id : string) :
  let html := _build_email_html repr_compound search_title resources job_id in
  let params := email_params from_email to_email search_title html in
  params !! "subject" = Some (PStr (email_subject search_title))
  /\ params !! "html" = Some (PStr html)
  /\ contains search_title (email_subject search_title)
  /\ contains search_title html
  /\ contains (pretty (List.length resources)) html
  /\ contains job_id html
  /\ Forall (fun resource =>
               Forall (fun field => contains field html) (shown_fields resource))
            resources.
Proof.
  intros html params. subst params.
  split; [by unfold email_params; simplify_map_eq|].
  split; [by unfold email_params; simplify_map_eq|].
  split; [unfold email_subject; find_piece|].
  subst html. unfold _build_email_html.
  repeat split; [find_piece .. |].
  apply Forall_forall. intros resource Hin.
  apply Forall_forall. intros field Hfield.
  eapply contains_trans; [by apply resource_html_shows|].
  do 7 apply contains_app_r. apply contains_app_l.
  by apply foldl_has_each.
Qed.


Definition sent_line (to_email : string) (response : pydict) : string :=
  "✅ Email sent successfully to " ++ to_email ++ " (ID: "
  ++ py_str repr_compound (dict_get_default response "id" (PStr "unknown")) ++ ")".



End Props.

(** *** The notifier on concrete inputs *)



(** The same happens in the handler: the delivery fails, the handler's own
    [print] raises, and that exception leaves the function. *)
Example send_results_email_handler_raises :
  send_results_email InMemory.emails_send_down InMemory.console_closed
    InMemory.repr_compound
    "ada@example.org" "Algorithms Resources" [] "7"
    (InMemory.mail_world {[ "RESEND_API_KEY" := "re_123" ]})
  = (Raise (Exn OtherException "I/O operation on closed file."),
     World tt {[ "RESEND_API_KEY" := "re_123" ]} (Some "re_123") []).
Proof. reflexivity. Qed.

(** Without a key nothing is sent and one line is printed. *)
Example send_results_email_not_configured :
  send_results_email InMemory.emails_send_down InMemory.console_ok
    InMemory.repr_compound
    "ada@example.org" "Algorithms Resources" [] "7" (InMemory.mail_world ∅)
  = (Ok false,
     World tt ∅ None
       ["⚠️  Resend API key not configured, skipping email to ada@example.org"]).
Proof. reflexivity. Qed.

End EmailProps.

(** ** The page fetcher *)

Module FetcherProps.

Import WebPageFetcherTool.

Section Props.

Context {W : Type}.
Variable requests_get : string -> Z -> gmap string string -> M W http_response.
Variable http_error_msg : http_response -> string.
Variable soup_text : string -> result string.

Lemma on_error_message (url : string) (e : exn) (w : W) :
  exists message : string,
    on_error url e w = (Ok message, w)
    /\ String.prefix "ERROR:" message = true.
Proof.
  unfold on_error, ret.
  destruct (exn_class e); eexists; (split; [reflexivity|]); reflexivity.
Qed.

(** Each way the [try] block can fail: the request raising, an error
    status, the parser raising. *)
Lemma fetch_failures (url : string) (w : W) :
  (forall e w', requests_get url 15 {[ "User-Agent" := user_agent ]} w = (Raise e, w') ->
     fetch requests_get http_error_msg soup_text url w = (Raise e, w'))
  /\ (forall response w',
        requests_get url 15 {[ "User-Agent" := user_agent ]} w = (Ok response, w') ->
        (400 <= status_code response < 600)%Z ->
        fetch requests_get http_error_msg soup_text url w
        = (Raise (Exn (RequestsHTTPError (status_code response))
                      (http_error_msg response)), w'))
  /\ (forall response w' e,
        requests_get url 15 {[ "User-Agent" := user_agent ]} w = (Ok response, w') ->
        ~ (400 <= status_code response < 600)%Z ->
        soup_text (text response) = Raise e ->
        fetch requests_get http_error_msg soup_text url w = (Raise e, w')).
Proof.
  unfold fetch, bind, raise_for_status, raise, ret, lift.
  split; [|split].
  - intros e w' ->. reflexivity.
  - intros response w' -> [Hlo Hhi].
    apply Z.leb_le in Hlo. apply Z.ltb_lt in Hhi. rewrite Hlo, Hhi. reflexivity.
  - intros response w' e -> Hcode Hsoup.
    destruct (400 <=? status_code response)%Z eqn:Hlo;
      destruct (status_code response <? 600)%Z eqn:Hhi; simpl;
      try (rewrite Hsoup; reflexivity).
    apply Z.leb_le in Hlo. apply Z.ltb_lt in Hhi. lia.
Qed.

(** C10. [_run] always returns a string and never raises, whatever the
    request, the status and the parser do.  If [requests.get] raises (a
    timeout, another request failure, anything else) the answer is the
    message of the matching [except] clause, which begins with [ERROR:]; if
    the response has a 4xx or 5xx status the answer is the [ERROR: HTTP
    error] message; if the parser raises the answer begins with [ERROR:]
    too; otherwise the answer is the cleaned text of the page.  In each
    case the world is the one the request left. *)
Theorem run_never_raises (url : string) (w : W) :
  let run := _run requests_get http_error_msg soup_text url w in
  (exists (answer : string) (w' : W), run = (Ok answer, w'))
  /\ match requests_get url 15 {[ "User-Agent" := user_agent ]} w with
     | (Raise e, w') =>
         exists message : string,
           run = (Ok message, w')
           /\ on_error url e w' = (Ok message, w')
           /\ String.prefix "ERROR:" message = true
     | (Ok response, w') =>
         if (400 <=? status_code response)%Z && (status_code response <? 600)%Z
         then
           run = (Ok ("ERROR: HTTP error " ++ pretty (status_code response)
                      ++ " while fetching " ++ url), w')
           /\ String.prefix "ERROR:"
                ("ERROR: HTTP error " ++ pretty (status_code response)
                 ++ " while fetching " ++ url) = true
         else
           match soup_text (text response) with
           | Raise e =>
               exists message : string,
                 run = (Ok message, w')
                 /\ on_error url e w' = (Ok message, w')
                 /\ String.prefix "ERROR:" message = true
           | Ok page => run = (Ok (clean_text page), w')
           end
     end.
Proof.
  intros run.
  assert (Hcases :
    match requests_get url 15 {[ "User-Agent" := user_agent ]} w with
    | (Raise e, w') =>
        exists message : string,
          run = (Ok message, w')
          /\ on_error url e w' = (Ok message, w')
          /\ String.prefix "ERROR:" message = true
    | (Ok response, w') =>
        if (400 <=? status_code response)%Z && (status_code response <? 600)%Z
        then
          run = (Ok ("ERROR: HTTP error " ++ pretty (status_code response)
                     ++ " while fetching " ++ url), w')
          /\ String.prefix "ERROR:"
               ("ERROR: HTTP error " ++ pretty (status_code response)
                ++ " while fetching " ++ url) = true
        else
          match soup_text (text response) with
          | Raise e =>
              exists message : string,
                run = (Ok message, w')
                /\ on_error url e w' = (Ok message, w')
                /\ String.prefix "ERROR:" message = true
          | Ok page => run = (Ok (clean_text page), w')
          end
    end).
  { subst run. unfold _run, try_except, fetch, bind, raise_for_status, raise,
      ret, lift.
    destruct (requests_get url 15 _ w) as [[response | e] w'].
    - destruct ((400 <=? status_code response)%Z
                && (status_code response <? 600)%Z).
      + split; reflexivity.
      + destruct (soup_text (text response)) as [page | e]; [reflexivity|].
        destruct (on_error_message url e w') as (message & Hmsg & Hprefix).
        exists message. by rewrite Hmsg.
    - destruct (on_error_message url e w') as (message & Hmsg & Hprefix).
      exists message. by rewrite Hmsg. }
  split; [|exact Hcases].
  destruct (requests_get url 15 _ w) as [[response | e] w'].
  - destruct ((400 <=? status_code response)%Z
              && (status_code response <? 600)%Z).
    + destruct Hcases as [-> _]. by eexists _, _.
    + destruct (soup_text (text response)) as [page | e].
      * rewrite Hcases. by eexists _, _.
      * destruct Hcases as (message & -> & _). by eexists _, _.
  - destruct Hcases as (message & -> & _). by eexists _, _.
Qed.

End Props.

(** *** The fetcher on concrete pages *)

Example run_timeout :
  _run InMemory.site_timeout (fun _ => "") InMemory.plain_text
       "https://example.org/cs101" tt
  = (Ok "ERROR: Request timed out while fetching https://example.org/cs101", tt).
Proof. reflexivity. Qed.

Example run_not_found :
  _run (InMemory.site (HttpResponse 404 "gone")) (fun _ => "404 Client Error")
       InMemory.plain_text "https://example.org/cs101" tt
  = (Ok "ERROR: HTTP error 404 while fetching https://example.org/cs101", tt).
Proof. reflexivity. Qed.

Example run_page :
  _run (InMemory.site (HttpResponse 200 ("  CS 101 " ++ LF ++ LF ++ " Syllabus" ++ LF)))
       (fun _ => "") InMemory.plain_text "https://example.org/cs101" tt
  = (Ok ("CS 101" ++ LF ++ "Syllabus"), tt).
Proof. reflexivity. Qed.

(** A line made of a no-break space only is dropped, and an em space at
    the end of a line is stripped, as [str.strip] does. *)
Example run_page_unicode_space :
  _run (InMemory.site
          (HttpResponse 200 ("Week 1" ++ InMemory.em_space ++ LF
                             ++ InMemory.no_break_space ++ LF ++ "Week 2")))
       (fun _ => "") InMemory.plain_text "https://example.org/cs101" tt
  = (Ok ("Week 1" ++ LF ++ "Week 2"), tt).
Proof. reflexivity. Qed.

(** The parser raising is reported, not raised. *)
Example run_parser_error :
  _run (InMemory.site (HttpResponse 200 "<html>"))
       (fun _ => "") InMemory.parser_down "https://example.org/cs101" tt
  = (Ok "ERROR: Unexpected error while processing https://example.org/cs101: bad markup",
     tt).
Proof. reflexivity. Qed.

End FetcherProps.

(** ** The job lifecycle *)

Module OrchestratorProps.

Import Orchestrator.

(** How the reading of one job can change in one step. *)
Inductive moves : option status -> option status -> Prop :=
| moves_stay (o : option status) : moves o o
| moves_create : moves None (Some pending)
| moves_start : moves (Some pending) (Some running)
| moves_abort : moves (Some pending) (Some failed)
| moves_complete : moves (Some running) (Some completed)
| moves_fail : moves (Some running) (Some failed).

(** What holds of every reachable state: a record is stored under its own
    id and ids come from the counter; a scheduled unit has a [pending]
    record and an executing unit a [running] one. *)
Record wf (s : sys) : Prop := Wf {
  wf_ids : forall (job_id : string) (r : job_record),
    store s !! job_id = Some r ->
    id r = job_id /\ exists n : nat, n < next_id s /\ job_id = pretty n;
  wf_scheduled : forall job_id : string,
    job_id ∈ scheduled s ->
    exists r, store s !! job_id = Some r /\ job_status r = pending;
  wf_executing : forall job_id : string,
    job_id ∈ executing s ->
    exists r, store s !! job_id = Some r /\ job_status r = running
}.

Lemma wf_init : wf init.
Proof.
  split; simpl.
  - intros job_id r Hr. by rewrite lookup_empty in Hr.
  - intros job_id Hin. by apply elem_of_empty in Hin.
  - intros job_id Hin. by apply elem_of_empty in Hin.
Qed.

Lemma fresh_id (s : sys) : wf s -> store s !! pretty (next_id s) = None.
Proof.
  intros Hwf. destruct (store s !! pretty (next_id s)) as [r|] eqn:Hr; [|done].
  destruct (wf_ids s Hwf _ _ Hr) as (_ & n & Hn & Heq).
  apply (inj pretty) in Heq. lia.
Qed.

Lemma wf_create (ins : pydict) (wrote : store_answer) (s : sys) :
  wf s -> wf (create ins wrote s).2.
Proof.
  intros Hwf. pose proof (fresh_id s Hwf) as Hfresh.
  destruct wrote; (split; simpl; unfold put; simpl).
  - intros job_id r Hr.
    destruct (decide (pretty (next_id s) = job_id)) as [<- | Hne].
    + rewrite lookup_insert_eq in Hr. injection Hr as <-. simpl.
      split; [done|]. exists (next_id s). split; [lia | done].
    + rewrite lookup_insert_ne in Hr by done.
      destruct (wf_ids s Hwf _ _ Hr) as (Hid & n & Hn & Heq).
      split; [done|]. exists n. split; [lia | done].
  - intros job_id Hin.
    destruct (decide (pretty (next_id s) = job_id)) as [<- | Hne].
    + rewrite lookup_insert_eq. eexists. split; [done | done].
    + rewrite lookup_insert_ne by done.
      apply (wf_scheduled s Hwf).
      apply elem_of_union in Hin as [Hin | Hin]; [|done].
      apply elem_of_singleton in Hin. congruence.
  - intros job_id Hin.
    destruct (wf_executing s Hwf _ Hin) as (r & Hr & Hst).
    rewrite lookup_insert_ne; [by exists r|].
    intros <-. by rewrite Hfresh in Hr.
  - intros job_id r Hr.
    destruct (wf_ids s Hwf _ _ Hr) as (Hid & n & Hn & Heq).
    split; [done|]. exists n. split; [lia | done].
  - apply (wf_scheduled s Hwf).
  - apply (wf_executing s Hwf).
Qed.

(** The store after [mark_failed], read at any id. *)
Lemma mark_failed_lookup (r : job_record) (marked : store_answer) (s : sys)
    (j : string) :
  (mark_failed r marked s !! j = store s !! j)
  \/ (j = id r /\ exists r', mark_failed r marked s !! j = Some r'
                           /\ id r' = id r /\ job_status r' = failed).
Proof.
  unfold mark_failed. destruct marked; simpl; [|by left].
  unfold put. simpl. destruct (decide (id r = j)) as [<- | Hne].
  - right. split; [done|]. rewrite lookup_insert_eq. eexists. by split.
  - left. by rewrite lookup_insert_ne.
Qed.

Lemma mark_failed_other (r : job_record) (marked : store_answer) (s : sys)
    (j : string) :
  j <> id r -> mark_failed r marked s !! j = store s !! j.
Proof.
  intros Hne. by destruct (mark_failed_lookup r marked s j) as [? | [? _]].
Qed.

Lemma wf_ids_mark_failed (r : job_record) (marked : store_answer) (s : sys)
    (job_id : string) :
  wf s -> store s !! job_id = Some r ->
  forall (j : string) (r' : job_record),
    mark_failed r marked s !! j = Some r' ->
    id r' = j /\ exists n : nat, n < next_id s /\ j = pretty n.
Proof.
  intros Hwf Hr j r' Hr'.
  destruct (wf_ids s Hwf _ _ Hr) as (Hid & n & Hn & Heq).
  destruct (mark_failed_lookup r marked s j)
    as [Hsame | (-> & r1 & Hr1 & Hid1 & _)].
  - rewrite Hsame in Hr'. by apply (wf_ids s Hwf).
  - assert (r1 = r') as -> by congruence.
    split; [done|]. exists n. by rewrite Hid.
Qed.

Lemma wf_start (job_id : string) (wrote marked : store_answer) (s : sys) :
  wf s -> wf (start job_id wrote marked s).
Proof.
  intros Hwf. unfold start, get.
  destruct (store s !! job_id) as [r|] eqn:Hr; [|done].
  case_bool_decide as Hin; [|done].
  destruct (wf_ids s Hwf _ _ Hr) as (Hid & n & Hn & Heq).
  assert (Hnot : forall j, j ∈ executing s -> j <> id r).
  { intros j Hj ->. rewrite Hid in Hj.
    destruct (wf_scheduled s Hwf _ Hin) as (r1 & Hr1 & Hpend).
    destruct (wf_executing s Hwf _ Hj) as (r2 & Hr2 & Hrun). congruence. }
  destruct wrote; simpl.
  - split; simpl; unfold put; simpl; rewrite Hid.
    + intros j r' Hr'.
      destruct (decide (job_id = j)) as [<- | Hne].
      * rewrite lookup_insert_eq in Hr'. injection Hr' as <-. simpl.
        split; [done|]. by exists n.
      * rewrite lookup_insert_ne in Hr' by done. by apply (wf_ids s Hwf).
    + intros j Hj. apply elem_of_difference in Hj as [Hj Hne].
      rewrite lookup_insert_ne.
      * by apply (wf_scheduled s Hwf).
      * intros ->. apply Hne. by apply elem_of_singleton.
    + intros j Hj.
      destruct (decide (job_id = j)) as [<- | Hne].
      * rewrite lookup_insert_eq. eexists. split; done.
      * rewrite lookup_insert_ne by done.
        apply (wf_executing s Hwf).
        apply elem_of_union in Hj as [Hj | Hj]; [|done].
        apply elem_of_singleton in Hj. congruence.
  - split; simpl.
    + by apply (wf_ids_mark_failed r marked s job_id).
    + intros j Hj. apply elem_of_difference in Hj as [Hj Hne].
      rewrite mark_failed_other.
      * by apply (wf_scheduled s Hwf).
      * rewrite Hid. intros ->. apply Hne. by apply elem_of_singleton.
    + intros j Hj. rewrite mark_failed_other by (by apply Hnot).
      by apply (wf_executing s Hwf).
Qed.

Lemma wf_finish (job_id : string) (outcome : engine_result) (sent : bool)
    (wrote marked : store_answer) (s : sys) :
  wf s -> wf (finish job_id outcome sent wrote marked s).
Proof.
  intros Hwf. unfold finish, get.
  destruct (store s !! job_id) as [r|] eqn:Hr; [|done].
  case_bool_decide as Hin; [|done].
  destruct (wf_ids s Hwf _ _ Hr) as (Hid & n & Hn & Heq).
  destruct (wf_executing s Hwf _ Hin) as (r0 & Hr0 & Hrun).
  assert (r0 = r) as -> by congruence.
  assert (Hnot : forall j, j ∈ scheduled s -> job_id <> j).
  { intros j Hj <-.
    destruct (wf_scheduled s Hwf _ Hj) as (r1 & Hr1 & Hpend). congruence. }
  destruct outcome as [title found raw | description]; destruct wrote; simpl;
    (split; simpl;
     [ | intros j Hj | intros j Hj; apply elem_of_difference in Hj as [Hj Hne] ]).
  all: try (by apply (wf_ids_mark_failed r marked s job_id)).
  all: try (rewrite mark_failed_other;
            [ first [by apply (wf_scheduled s Hwf) | by apply (wf_executing s Hwf)]
            | rewrite Hid; first [ intros ->; by apply (Hnot job_id)
                                 | intros ->; apply Hne; by apply elem_of_singleton ] ]).
  all: unfold put; simpl; rewrite Hid.
  all: try (intros j r' Hr';
            destruct (decide (job_id = j)) as [<- | Hne];
            [ rewrite lookup_insert_eq in Hr'; injection Hr' as <-; simpl;
              split; [done | by exists n]
            | rewrite lookup_insert_ne in Hr' by done; by apply (wf_ids s Hwf) ]).
  all: try (rewrite lookup_insert_ne by (by apply Hnot);
            by apply (wf_scheduled s Hwf)).
  all: rewrite lookup_insert_ne;
    [ by apply (wf_executing s Hwf)
    | intros ->; apply Hne; by apply elem_of_singleton ].
Qed.

Lemma wf_step (s : sys) (ev : event) : wf s -> wf (step s ev).
Proof.
  intros Hwf.
  destruct ev as [ins wrote | job_id wrote marked
                 | job_id outcome sent wrote marked | job_id].
  - by apply wf_create.
  - by apply wf_start.
  - by apply wf_finish.
  - exact Hwf.
Qed.

Lemma wf_run (s : sys) (evs : list event) : wf s -> wf (run s evs).
Proof.
  revert s. induction evs as [|ev rest IH]; intros s Hwf; simpl; [done|].
  apply IH, wf_step, Hwf.
Qed.

(** [mark_failed] either leaves the reading of a job as it was or, for the
    job it is about, turns it to [failed]. *)
Lemma mark_failed_moves (r : job_record) (marked : store_answer) (s : sys)
    (job_id : string) :
  (job_status <$> mark_failed r marked s !! job_id)
  = (job_status <$> store s !! job_id)
  \/ (job_id = id r
      /\ (job_status <$> mark_failed r marked s !! job_id) = Some failed).
Proof.
  destruct (mark_failed_lookup r marked s job_id)
    as [-> | (-> & r' & -> & _ & Hfailed)]; [by left|].
  right. split; [done|]. simpl. by rewrite Hfailed.
Qed.

Lemma step_moves (job_id : string) (s : sys) (ev : event) :
  wf s -> moves (observe job_id s) (observe job_id (step s ev)).
Proof.
  intros Hwf. unfold observe, get.
  destruct ev as [ins wrote | k wrote marked | k outcome sent wrote marked | k];
    simpl.
  - destruct wrote; simpl; [|apply moves_stay]. unfold put. simpl.
    destruct (decide (pretty (next_id s) = job_id)) as [<- | Hne].
    + rewrite lookup_insert_eq, (fresh_id s Hwf). apply moves_create.
    + rewrite lookup_insert_ne by done. apply moves_stay.
  - unfold start, get.
    destruct (store s !! k) as [r|] eqn:Hr; [|apply moves_stay].
    case_bool_decide as Hin; [|apply moves_stay].
    destruct (wf_ids s Hwf _ _ Hr) as (Hid & _).
    destruct (wf_scheduled s Hwf _ Hin) as (r0 & Hr0 & Hpend).
    assert (r0 = r) as -> by congruence.
    destruct wrote; simpl.
    + unfold put. simpl. rewrite Hid.
      destruct (decide (k = job_id)) as [<- | Hne].
      * rewrite lookup_insert_eq, Hr. simpl. rewrite Hpend. apply moves_start.
      * rewrite lookup_insert_ne by done. apply moves_stay.
    + destruct (mark_failed_moves r marked s job_id) as [-> | [-> ->]];
        [apply moves_stay|].
      rewrite Hid, Hr. simpl. rewrite Hpend. apply moves_abort.
  - unfold finish, get.
    destruct (store s !! k) as [r|] eqn:Hr; [|apply moves_stay].
    case_bool_decide as Hin; [|apply moves_stay].
    destruct (wf_ids s Hwf _ _ Hr) as (Hid & _).
    destruct (wf_executing s Hwf _ Hin) as (r0 & Hr0 & Hrun).
    assert (r0 = r) as -> by congruence.
    assert (Hmark : moves (job_status <$> store s !! job_id)
                          (job_status <$> mark_failed r marked s !! job_id)).
    { destruct (mark_failed_moves r marked s job_id) as [-> | [-> ->]];
        [apply moves_stay|].
      rewrite Hid, Hr. simpl. rewrite Hrun. apply moves_fail. }
    destruct outcome as [title found raw | description]; destruct wrote;
      simpl; try exact Hmark;
      unfold put; simpl; rewrite Hid;
      (destruct (decide (k = job_id)) as [<- | Hne];
       [ rewrite lookup_insert_eq, Hr; simpl; rewrite Hrun
       | rewrite lookup_insert_ne by done; apply moves_stay ]).
    + apply moves_complete.
    + apply moves_fail.
  - apply moves_stay.
Qed.

(** The histories that can follow a reading. *)
Definition lifecycle_from (o : option status) (l : list status) : Prop :=
  match o with
  | None =>
      l = [] \/ l = [pending] \/ l = [pending; running]
      \/ l = [pending; running; completed] \/ l = [pending; running; failed]
      \/ l = [pending; failed]
  | Some pending =>
      l = [pending] \/ l = [pending; running]
      \/ l = [pending; running; completed] \/ l = [pending; running; failed]
      \/ l = [pending; failed]
  | Some running =>
      l = [running] \/ l = [running; completed] \/ l = [running; failed]
  | Some completed => l = [completed]
  | Some failed => l = [failed]
  end.

Lemma trace_head (s : sys) (evs : list event) :
  exists rest, trace s evs = s :: rest.
Proof. destruct evs; simpl; eauto. Qed.

Lemma omap_cons_some {A B : Type} (f : A -> option B) (x : A) (y : B) (l : list A) :
  f x = Some y -> omap f (x :: l) = y :: omap f l.
Proof. intros H. simpl. by rewrite H. Qed.

Lemma omap_cons_none {A B : Type} (f : A -> option B) (x : A) (l : list A) :
  f x = None -> omap f (x :: l) = omap f l.
Proof. intros H. simpl. by rewrite H. Qed.

Lemma collapse_same (a : status) (l : list status) :
  collapse (a :: a :: l) = collapse (a :: l).
Proof. cbn [collapse]. by rewrite bool_decide_eq_true_2. Qed.

Lemma collapse_change (a b : status) (l : list status) :
  a <> b -> collapse (a :: b :: l) = a :: collapse (b :: l).
Proof. intros H. cbn [collapse]. by rewrite bool_decide_eq_false_2. Qed.

Lemma history_from (job_id : string) (evs : list event) (s : sys) :
  wf s ->
  lifecycle_from (observe job_id s) (status_history job_id s evs).
Proof.
  unfold status_history. revert s.
  induction evs as [|ev rest IH]; intros s Hwf.
  - cbn [trace]. destruct (observe job_id s) as [st|] eqn:Hobs.
    + rewrite (omap_cons_some _ _ _ _ Hobs). destruct st; simpl; auto.
    + rewrite (omap_cons_none _ _ _ Hobs). simpl. auto.
  - pose proof (step_moves job_id s ev Hwf) as Hmove.
    pose proof (IH (step s ev) (wf_step s ev Hwf)) as Hrest.
    cbn [trace].
    destruct (trace_head (step s ev) rest) as (tl & Htl).
    rewrite Htl in Hrest |- *.
    destruct (observe job_id s) as [a|] eqn:Ha;
      destruct (observe job_id (step s ev)) as [b|] eqn:Hb;
      inversion Hmove; subst;
      rewrite ?(omap_cons_some _ s _ _ Ha), ?(omap_cons_none _ s _ Ha);
      rewrite ?(omap_cons_some _ (step s ev) _ _ Hb),
        ?(omap_cons_none _ (step s ev) _ Hb) in Hrest |- *.
    + rewrite collapse_same. exact Hrest.
    + rewrite collapse_change by done. simpl in *.
      destruct Hrest as [-> | [-> | ->]]; auto 10.
    + rewrite collapse_change by done. simpl in *. rewrite Hrest. auto 10.
    + rewrite collapse_change by done. simpl in *. rewrite Hrest. auto.
    + rewrite collapse_change by done. simpl in *. rewrite Hrest. auto.
    + simpl in *. tauto.
    + exact Hrest.
Qed.

Lemma terminal_stays (job_id : string) (evs : list event) (s : sys) (st : status) :
  wf s -> observe job_id s = Some st -> terminal st = true ->
  observe job_id (run s evs) = Some st.
Proof.
  revert s. induction evs as [|ev rest IH]; intros s Hwf Hobs Hterm; simpl.
  - exact Hobs.
  - apply IH; [by apply wf_step | | exact Hterm].
    pose proof (step_moves job_id s ev Hwf) as Hmove.
    rewrite Hobs in Hmove. inversion Hmove; subst; try done.
Qed.

Lemma run_app (s : sys) (evs1 evs2 : list event) :
  run s (evs1 ++ evs2) = run (run s evs1) evs2.
Proof. unfold run. apply foldl_app. Qed.

(** C2. Along every run of the orchestrator from the empty store, with
    the store free to refuse any write, the statuses a job shows over time,
    repeated readings collapsed, form a prefix of [pending, running,
    completed], of [pending, running, failed] or of [pending, failed]; and
    once a job shows [completed] or [failed], it shows that same status
    after any further events. *)
Theorem status_history_monotone (job_id : string) (evs : list event) :
  (status_history job_id init evs `prefix_of` [pending; running; completed]
   \/ status_history job_id init evs `prefix_of` [pending; running; failed]
   \/ status_history job_id init evs `prefix_of` [pending; failed])
  /\ (forall (later : list event) (st : status),
        observe job_id (run init evs) = Some st ->
        terminal st = true ->
        observe job_id (run init (evs ++ later)) = Some st).
Proof.
  split.
  - pose proof (history_from job_id evs init wf_init) as H.
    change (observe job_id init) with (@None status) in H. simpl in H.
    destruct H as [-> | [-> | [-> | [-> | [-> | ->]]]]].
    + left. apply prefix_nil.
    + left. by exists [running; completed].
    + left. by exists [completed].
    + left. by exists [].
    + right. left. by exists [].
    + right. right. by exists [].
  - intros later st Hobs Hterm. rewrite run_app.
    apply terminal_stays; [apply wf_run, wf_init | exact Hobs | exact Hterm].
Qed.

(** *** The lifecycle on concrete runs *)

Lemma status_history_monotone_witness :
  observe "0" (run init (InMemory.completed_run ++ InMemory.late_events))
  = Some completed.
Proof.
  apply (proj2 (status_history_monotone "0" InMemory.completed_run)
           InMemory.late_events completed);
    reflexivity.
Defined.

(** The store refuses the write of [running] and takes the one that marks
    the job [failed]: the job is read as [pending] and then as [failed],
    never as [running], and this history is a prefix of neither
    [pending, running, completed] nor [pending, running, failed]. *)
Lemma status_history_skips_running :
  status_history "0" init InMemory.aborted_run = [pending; failed]
  /\ bool_decide ([pending; failed] `prefix_of` [pending; running; completed])
     = false
  /\ bool_decide ([pending; failed] `prefix_of` [pending; running; failed])
     = false.
Proof. repeat split; reflexivity. Qed.

Example completed_run_history :
  status_history "0" init InMemory.completed_run = [pending; running; completed].
Proof. reflexivity. Qed.

Example failed_run_history :
  status_history "0" init InMemory.failed_run = [pending; running; failed]
  /\ (error <$> get "0" (store (run init InMemory.failed_run)))
     = Some (Some "network timeout")
  /\ (results <$> get "0" (store (run init InMemory.failed_run))) = Some None
  /\ notified (run init InMemory.failed_run) = [].
Proof. repeat split; reflexivity. Qed.

(** When the store refuses both writes the job is stuck: it stays
    [pending], and its unit does not run again. *)
Example stuck_run_history :
  status_history "0" init InMemory.stuck_run = [pending]
  /\ scheduled (run init InMemory.stuck_run) = ∅.
Proof. split; reflexivity. Qed.

End OrchestratorProps.

(** ** More on the request handlers *)

Module MainMore.

Import Main.

(** The keys both read endpoints take with a subscript, in the order the
    payload literal evaluates them. *)
Definition required_keys : list string := [ "id"; "status"; "created_at" ].

Definition lacks (job : pydict) (k : string) : bool :=
  match job !! k with
  | None => true
  | Some _ => false
  end.

(** The first required key a row lacks, if any. *)
Definition first_missing (job : pydict) : option string :=
  List.find (lacks job) required_keys.

(** The keys of the payload of the two read endpoints. *)
Definition payload_keys : gset string :=
  {[ "job_id"; "status"; "status_message"; "search_title"; "results";
     "raw_output"; "error"; "metadata"; "created_at"; "completed_at" ]}.

Section Props.

Context {W : Type}.
Variable validate_crew_inputs : pydict -> bool.
Variable create_job : pydict -> W -> result string * W.
Variable run_crew_async : string -> pydict -> W -> result unit * W.
Variable get_job : string -> W -> result (option pydict) * W.
Variable repr_compound : pyval -> string.

(** X1. [submit_job] never lets an exception through: it answers with the
    400 error (nothing called), with the 500 error (after [create_job], or
    after [create_job] and the dispatch), or with a payload carrying the id
    that [create_job] gave. [create_job] is called at most once and the
    dispatch only after it, with that id. *)
Theorem submit_job_outcomes (inputs : pydict) (w : world W) :
  match submit_job validate_crew_inputs create_job run_crew_async inputs w with
  | (r, w') =>
      (r = HTTPException 400 invalid_inputs_detail /\ w' = w)
      \/ (exists e, r = job_creation_failed e
                    /\ calls w' = (calls w ++ [CallCreateJob inputs])%list)
      \/ (exists e job_id,
            r = job_creation_failed e
            /\ (create_job inputs (ext w)).1 = Ok job_id
            /\ calls w' = (calls w ++ [CallCreateJob inputs;
                                       CallRunCrewAsync job_id inputs])%list)
      \/ (exists job_id payload,
            r = Returned payload
            /\ (create_job inputs (ext w)).1 = Ok job_id
            /\ payload !! "job_id" = Some (PStr job_id)
            /\ calls w' = (calls w ++ [CallCreateJob inputs;
                                       CallRunCrewAsync job_id inputs])%list)
  end.
Proof.
  unfold submit_job.
  destruct (validate_crew_inputs inputs); simpl; [|by left].
  destruct (create_job inputs (ext w)) as [[job_id | e] e1]; simpl.
  - destruct (run_crew_async job_id inputs e1) as [[[] | e] e2]; simpl.
    + do 3 right. exists job_id. eexists. repeat split.
      by rewrite <- app_assoc.
    + do 2 right. left. exists e, job_id. repeat split. by rewrite <- app_assoc.
  - right. left. by exists e.
Qed.

Lemma job_projection_some (job payload : pydict) :
  job_projection job = Ok payload ->
  exists id st created,
    job !! "id" = Some id /\ job !! "status" = Some st
    /\ job !! "created_at" = Some created
    /\ payload !! "status" = Some st
    /\ dom payload = payload_keys.
Proof.
  unfold job_projection, dict_item.
  destruct (job !! "id") as [id|]; [|discriminate].
  destruct (job !! "status") as [st|]; [|discriminate].
  destruct (job !! "created_at") as [created|]; [|discriminate].
  intros [= <-]. exists id, st, created.
  do 3 (split; [reflexivity|]). split; [by simplify_map_eq|].
  unfold payload_keys. rewrite !dom_insert_L, dom_singleton_L. set_solver.
Qed.

(** X3. The shareable-results endpoint never hands out a job that is not
    completed: whenever it returns a payload, the payload's status is the
    string [completed] and its keys are the ten of the projection. *)
Theorem shareable_results_only_completed
    (job_id : string) (w w' : world W) (payload : pydict) :
  get_shareable_results get_job repr_compound job_id w = (Returned payload, w') ->
  payload !! "status" = Some (PStr "completed")
  /\ dom payload = payload_keys.
Proof.
  unfold get_shareable_results.
  destruct (get_job job_id (ext w)) as [[job | e] e1]; [|discriminate].
  destruct (no_job job); [discriminate|].
  destruct (dict_item (default ∅ job) "status") as [st | e] eqn:Hst; [|discriminate].
  destruct (eq_str st "completed") eqn:Heq; simpl; [|discriminate].
  apply MainProps.eq_str_true in Heq as ->.
  destruct (job_projection (default ∅ job)) as [p | e] eqn:Hp; simpl; [|discriminate].
  intros [= <- <-].
  destruct (job_projection_some _ _ Hp) as (id & st & created & _ & Hst' & _ & Hpst & Hdom).
  unfold dict_item in Hst. rewrite Hst' in Hst. injection Hst as ->.
  split; [exact Hpst | exact Hdom].
Qed.

(** X4. A row that is an empty dict counts as no row: both read endpoints
    answer 404 for it. *)
Theorem empty_row_not_found (job_id : string) (w : world W) (e1 : W) :
  get_job job_id (ext w) = (Ok (Some ∅), e1) ->
  (exists detail,
     get_job_status get_job job_id w
     = (HTTPException 404 detail, logged (CallGetJob job_id) w e1))
  /\ (exists detail,
        get_shareable_results get_job repr_compound job_id w
        = (HTTPException 404 detail, logged (CallGetJob job_id) w e1)).
Proof.
  intros Hg. unfold get_job_status, get_shareable_results. rewrite Hg. simpl.
  rewrite bool_decide_eq_true_2 by done. split; eexists; reflexivity.
Qed.

(** X5. On a non-empty row the status endpoint either lets a [KeyError]
    through, for the first of [id], [status], [created_at] that the row
    lacks, or returns a payload with exactly the ten keys of the
    projection. *)
Theorem status_endpoint_on_row (job_id : string) (w : world W) (job : pydict) (e1 : W) :
  get_job job_id (ext w) = (Ok (Some job), e1) ->
  job <> ∅ ->
  match first_missing job with
  | Some k =>
      get_job_status get_job job_id w
      = (Unhandled (Exn KeyError (key_repr k)), logged (CallGetJob job_id) w e1)
  | None =>
      exists payload,
        get_job_status get_job job_id w
        = (Returned payload, logged (CallGetJob job_id) w e1)
        /\ dom payload = payload_keys
  end.
Proof.
  intros Hg Hne. unfold get_job_status. rewrite Hg. simpl.
  rewrite bool_decide_eq_false_2 by done.
  unfold first_missing, required_keys, lacks. simpl.
  destruct (job_projection job) as [p | e] eqn:Hp.
  - destruct (job_projection_some _ _ Hp) as (id & st & created & -> & -> & -> & _ & Hdom).
    exists p. split; [reflexivity | exact Hdom].
  - unfold job_projection, dict_item in Hp.
    destruct (job !! "id"); [|by injection Hp as <-].
    destruct (job !! "status"); [|by injection Hp as <-].
    destruct (job !! "created_at"); [discriminate | by injection Hp as <-].
Qed.

(** X6. The read endpoints only look up: whatever the lookup gives, the one
    collaborator call each makes is the lookup, the world is left as the
    lookup left it, and an exception of the lookup goes through unchanged. *)
Theorem read_endpoints_only_look_up (job_id : string) (w : world W) :
  let after := logged (CallGetJob job_id) w (get_job job_id (ext w)).2 in
  (get_job_status get_job job_id w).2 = after
  /\ (get_shareable_results get_job repr_compound job_id w).2 = after
  /\ match (get_job job_id (ext w)).1 with
     | Raise e =>
         (get_job_status get_job job_id w).1 = Unhandled e
         /\ (get_shareable_results get_job repr_compound job_id w).1 = Unhandled e
     | Ok _ => True
     end.
Proof.
  unfold get_job_status, get_shareable_results.
  destruct (get_job job_id (ext w)) as [[job | e] e1]; simpl.
  - destruct (no_job job); simpl; [done|].
    destruct (dict_item (default ∅ job) "status"); simpl; [|done].
    destruct (negb (eq_str a "completed")); done.
  - done.
Qed.

End Props.

(** *** On concrete requests *)

Lemma submit_job_dispatch_error_witness :
  submit_job Validator.validate_crew_inputs InMemory.create_job
             InMemory.run_crew_async_down InMemory.course_inputs InMemory.world0
  = (job_creation_failed (Exn OtherException "can't start new thread"),
     World (InMemory.create_job InMemory.course_inputs InMemory.table0).2
           ([] ++ [CallCreateJob InMemory.course_inputs]
               ++ [CallRunCrewAsync "2" InMemory.course_inputs])).
Proof.
  apply (MainProps.submit_job_dispatch_error Validator.validate_crew_inputs
           InMemory.create_job InMemory.run_crew_async_down
           InMemory.course_inputs InMemory.world0 "2"
           (Exn OtherException "can't start new thread")
           (InMemory.create_job InMemory.course_inputs InMemory.table0).2
           (InMemory.create_job InMemory.course_inputs InMemory.table0).2);
    reflexivity.
Defined.

Lemma shareable_results_only_completed_witness :
  exists (payload : pydict) (w' : world (gmap string pydict)),
    get_shareable_results InMemory.get_job InMemory.repr_compound "7"
      InMemory.world0
    = (Returned payload, w')
    /\ payload !! "status" = Some (PStr "completed")
    /\ dom payload = payload_keys.
Proof.
  eexists _, _. split; [reflexivity|].
  eapply (shareable_results_only_completed InMemory.get_job
            InMemory.repr_compound "7" InMemory.world0).
  reflexivity.
Defined.

Lemma empty_row_not_found_witness :
  (exists detail,
     get_job_status InMemory.get_job "e" InMemory.odd_world
     = (HTTPException 404 detail,
        logged (CallGetJob "e") InMemory.odd_world InMemory.odd_table))
  /\ (exists detail,
        get_shareable_results InMemory.get_job InMemory.repr_compound "e"
          InMemory.odd_world
        = (HTTPException 404 detail,
           logged (CallGetJob "e") InMemory.odd_world InMemory.odd_table)).
Proof.
  apply (empty_row_not_found InMemory.get_job InMemory.repr_compound
           "e" InMemory.odd_world InMemory.odd_table).
  reflexivity.
Defined.

Lemma status_endpoint_on_row_witness :
  get_job_status InMemory.get_job "n" InMemory.odd_world
  = (Unhandled (Exn KeyError "'created_at'"),
     logged (CallGetJob "n") InMemory.odd_world InMemory.odd_table).
Proof.
  assert (Hne : ({[ "id" := PStr "n"; "status" := PStr "running" ]} : pydict) <> ∅).
  { intros H. apply (f_equal (fun m => m !! "id")) in H. discriminate H. }
  exact (status_endpoint_on_row InMemory.get_job "n" InMemory.odd_world
           {[ "id" := PStr "n"; "status" := PStr "running" ]} InMemory.odd_table
           eq_refl Hne).
Defined.

End MainMore.

(** ** More on the page fetcher: the whitespace clean-up *)

Module FetcherMore.

Import WebPageFetcherTool.

(** No line feed occurs in [s]. *)
Fixpoint no_lf (s : string) : bool :=
  match s with
  | EmptyString => true
  | String c rest => negb (Ascii.eqb c (Ascii.ascii_of_nat 10)) && no_lf rest
  end.

(** [s] does not start with a whitespace character. *)
Definition starts_clean (s : string) : bool :=
  match head_space s with
  | Some _ => false
  | None => true
  end.

(** [s] does not end with a whitespace character: none of its tails, the
    empty one apart, is whitespace only. *)
Fixpoint ends_clean (s : string) : bool :=
  match s with
  | EmptyString => true
  | String _ rest => negb (all_space s) && ends_clean rest
  end.

(** The list [lines] of the clean-up, before it is joined. *)
Definition clean_lines (text : string) : list string :=
  List.map strip
    (List.filter (fun line => negb (String.eqb (strip line) ""))
                 (split_lines text)).

Lemma clean_text_lines (text : string) :
  clean_text text = join LF (clean_lines text).
Proof. reflexivity. Qed.

Lemma lstrip_unfold (s : string) :
  lstrip s = match head_space s with
             | Some rest => lstrip rest
             | None => s
             end.
Proof.
  destruct s as [|a [|b [|c r]]]; simpl; try reflexivity.
  - by destruct (ascii_space a).
  - destruct (ascii_space a); [reflexivity|]. by destruct (two_byte_space a b).
  - destruct (ascii_space a); [reflexivity|].
    destruct (two_byte_space a b); [reflexivity|].
    by destruct (three_byte_space a b c).
Qed.

Lemma head_space_cases (s rest : string) :
  head_space s = Some rest ->
  exists a, (s = String a rest)
            \/ (exists b, s = String a (String b rest))
            \/ (exists b c, s = String a (String b (String c rest))).
Proof.
  destruct s as [|a [|b [|c r]]]; simpl; try discriminate.
  - destruct (ascii_space a); [|discriminate]. intros [= <-]. eauto.
  - destruct (ascii_space a); [intros [= <-]; eauto|].
    destruct (two_byte_space a b); [|discriminate]. intros [= <-]. eauto.
  - destruct (ascii_space a); [intros [= <-]; eauto|].
    destruct (two_byte_space a b); [intros [= <-]; eauto 6|].
    destruct (three_byte_space a b c); [|discriminate]. intros [= <-]. eauto 8.
Qed.

Lemma head_space_shorter (s rest : string) :
  head_space s = Some rest -> (String.length rest < String.length s)%nat.
Proof.
  intros (a & [-> | [(b & ->) | (b & c & ->)]])%head_space_cases; simpl; lia.
Qed.

Lemma head_space_app (s rest t : string) :
  head_space s = Some rest -> head_space (s ++ t) = Some (rest ++ t).
Proof.
  destruct s as [|a [|b [|c r]]]; simpl; try discriminate;
    rewrite ?EmailProps.append_cons; simpl.
  - destruct (ascii_space a); [|discriminate]. by intros [= <-].
  - destruct (ascii_space a); [by intros [= <-]|].
    destruct (two_byte_space a b); [|discriminate]. by intros [= <-].
  - destruct (ascii_space a); [by intros [= <-]|].
    destruct (two_byte_space a b); [by intros [= <-]|].
    destruct (three_byte_space a b c); [|discriminate]. by intros [= <-].
Qed.

(** Induction on a string along [head_space]. *)
Lemma strip_ind (P : string -> Prop) :
  (forall s, head_space s = None -> P s) ->
  (forall s rest, head_space s = Some rest -> P rest -> P s) ->
  forall s, P s.
Proof.
  intros Hnone Hsome s.
  remember (String.length s) as n eqn:Hn.
  revert s Hn. induction (lt_wf n) as [n _ IH]. intros s ->.
  destruct (head_space s) as [rest|] eqn:Hs; [|by apply Hnone].
  apply (Hsome _ _ Hs). apply (IH (String.length rest)); [|reflexivity].
  by apply head_space_shorter.
Qed.

Lemma starts_clean_lstrip (s : string) : starts_clean (lstrip s) = true.
Proof.
  induction s as [s Hs | s rest Hs IH] using strip_ind;
    rewrite lstrip_unfold, Hs; [|exact IH].
  unfold starts_clean. by rewrite Hs.
Qed.

Lemma lstrip_clean (s : string) : starts_clean s = true -> lstrip s = s.
Proof.
  unfold starts_clean. rewrite lstrip_unfold.
  by destruct (head_space s).
Qed.

Lemma rstrip_cons (c : Ascii.ascii) (rest : string) :
  rstrip (String c rest)
  = if all_space (String c rest) then "" else String c (rstrip rest).
Proof. reflexivity. Qed.

Lemma all_space_app (s t : string) :
  all_space s = true -> all_space t = true -> all_space (s ++ t) = true.
Proof.
  unfold all_space. intros Hs Ht. revert Hs.
  induction s as [s Hs | s rest Hs IH] using strip_ind;
    rewrite (lstrip_unfold s), Hs.
  - intros ->%String.eqb_eq. exact Ht.
  - intros Hrest. by rewrite lstrip_unfold, (head_space_app _ _ t Hs), IH.
Qed.

(** [rstrip] cuts an all-whitespace tail off. *)
Lemma rstrip_tail (s : string) :
  exists tail, s = rstrip s ++ tail /\ all_space tail = true.
Proof.
  induction s as [|c s (tail & Hs & Htail)]; [by exists ""|].
  rewrite rstrip_cons. destruct (all_space (String c s)) eqn:Hall.
  - by exists (String c s).
  - exists tail. split; [|exact Htail]. rewrite EmailProps.append_cons. by rewrite <- Hs.
Qed.

Lemma rstrip_keeps (c : Ascii.ascii) (s : string) :
  all_space (String c s) = false -> all_space (String c (rstrip s)) = false.
Proof.
  intros Hall. destruct (rstrip_tail s) as (tail & Hs & Htail).
  destruct (all_space (String c (rstrip s))) eqn:Hkept; [|reflexivity].
  pose proof (all_space_app _ _ Hkept Htail) as Hboth.
  rewrite EmailProps.append_cons, <- Hs in Hboth. congruence.
Qed.

Lemma rstrip_idem (s : string) : rstrip (rstrip s) = rstrip s.
Proof.
  induction s as [|c s IH]; [reflexivity|].
  rewrite rstrip_cons. destruct (all_space (String c s)) eqn:Hall; [reflexivity|].
  by rewrite rstrip_cons, (rstrip_keeps _ _ Hall), IH.
Qed.

Lemma starts_clean_rstrip (s : string) :
  starts_clean s = true -> starts_clean (rstrip s) = true.
Proof.
  unfold starts_clean. destruct (rstrip_tail s) as (tail & Hs & _).
  destruct (head_space (rstrip s)) as [rest|] eqn:Hhead; [|done].
  rewrite Hs at 1. by rewrite (head_space_app _ _ tail Hhead).
Qed.

Lemma ends_clean_rstrip (s : string) : ends_clean (rstrip s) = true.
Proof.
  induction s as [|c s IH]; [reflexivity|].
  rewrite rstrip_cons. destruct (all_space (String c s)) eqn:Hall; [reflexivity|].
  change (negb (all_space (String c (rstrip s))) && ends_clean (rstrip s) = true).
  by rewrite (rstrip_keeps _ _ Hall), IH.
Qed.

Lemma rstrip_clean (s : string) : ends_clean s = true -> rstrip s = s.
Proof.
  induction s as [|c s IH]; [reflexivity|].
  change (negb (all_space (String c s)) && ends_clean s = true
          -> rstrip (String c s) = String c s).
  intros [Hall Hs]%andb_true_iff. apply negb_true_iff in Hall.
  by rewrite rstrip_cons, Hall, (IH Hs).
Qed.

Lemma strip_starts_clean (s : string) : starts_clean (strip s) = true.
Proof. apply starts_clean_rstrip, starts_clean_lstrip. Qed.

Lemma strip_ends_clean (s : string) : ends_clean (strip s) = true.
Proof. apply ends_clean_rstrip. Qed.

Lemma strip_strip (s : string) : strip (strip s) = strip s.
Proof.
  unfold strip at 1. rewrite (lstrip_clean _ (strip_starts_clean s)).
  apply rstrip_idem.
Qed.

(** [strip] leaves no whitespace at either end, and stripping twice is
    stripping once. *)
Theorem strip_idempotent (s : string) :
  strip (strip s) = strip s
  /\ starts_clean (strip s) = true
  /\ ends_clean (strip s) = true.
Proof.
  split; [apply strip_strip|].
  split; [apply strip_starts_clean | apply strip_ends_clean].
Qed.

Lemma split_lines_nonempty (s : string) : split_lines s <> [].
Proof.
  destruct s as [|c s]; simpl; [done|].
  destruct (Ascii.eqb c (Ascii.ascii_of_nat 10)); [done|].
  destruct (split_lines s); done.
Qed.

Lemma join_cons_char (c : Ascii.ascii) (piece : string) (pieces : list string) :
  join LF (String c piece :: pieces) = String c (join LF (piece :: pieces)).
Proof. destruct pieces; reflexivity. Qed.

Lemma join_cons (piece next : string) (pieces : list string) :
  join LF (piece :: next :: pieces) = piece ++ LF ++ join LF (next :: pieces).
Proof. reflexivity. Qed.

(** Splitting a text at its line feeds and joining the pieces with line
    feeds gives the text back. *)
Theorem join_split_lines (s : string) : join LF (split_lines s) = s.
Proof.
  induction s as [|c s IH]; [reflexivity|]. simpl.
  destruct (Ascii.eqb_spec c (Ascii.ascii_of_nat 10)) as [-> | Hc].
  - destruct (split_lines s) as [|piece pieces] eqn:Hs.
    + by apply split_lines_nonempty in Hs.
    + rewrite join_cons, IH. reflexivity.
  - destruct (split_lines s) as [|piece pieces] eqn:Hs.
    + by apply split_lines_nonempty in Hs.
    + by rewrite join_cons_char, IH.
Qed.

Lemma split_lines_no_lf (s : string) : no_lf s = true -> split_lines s = [s].
Proof.
  induction s as [|c s IH]; [reflexivity|]. simpl.
  intros [Hc Hs]%andb_true_iff. apply negb_true_iff in Hc.
  by rewrite Hc, (IH Hs).
Qed.

Lemma split_lines_app (a rest : string) :
  no_lf a = true -> split_lines (a ++ LF ++ rest) = a :: split_lines rest.
Proof.
  induction a as [|c a IH]; [reflexivity|]. simpl.
  intros [Hc Ha]%andb_true_iff. apply negb_true_iff in Hc.
  change (String c a ++ LF ++ rest) with (String c (a ++ LF ++ rest)).
  simpl. by rewrite Hc, (IH Ha).
Qed.

Lemma split_lines_join_cons (piece : string) (rest : list string) :
  Forall (fun piece => no_lf piece = true) (piece :: rest) ->
  split_lines (join LF (piece :: rest)) = piece :: rest.
Proof.
  revert piece. induction rest as [|next rest IH]; intros piece Hall;
    apply Forall_cons in Hall as [Hpiece Hrest].
  - by apply split_lines_no_lf.
  - by rewrite join_cons, (split_lines_app _ _ Hpiece), IH.
Qed.

(** Joining pieces that hold no line feed and splitting the result gives
    the pieces back, as long as there is at least one piece. *)
Theorem split_lines_join (pieces : list string) :
  pieces <> [] ->
  Forall (fun piece => no_lf piece = true) pieces ->
  split_lines (join LF pieces) = pieces.
Proof.
  intros Hne Hall. destruct pieces as [|piece rest]; [done|].
  by apply split_lines_join_cons.
Qed.

Lemma no_lf_split_lines (s : string) :
  Forall (fun piece => no_lf piece = true) (split_lines s).
Proof.
  induction s as [|c s IH]; simpl; [by repeat constructor|].
  destruct (Ascii.eqb c (Ascii.ascii_of_nat 10)) eqn:Hc.
  - by constructor.
  - destruct (split_lines s) as [|piece pieces] eqn:Hs;
      [by apply split_lines_nonempty in Hs|].
    apply Forall_cons in IH as [Hpiece Hrest].
    constructor; [|exact Hrest]. simpl. by rewrite Hc, Hpiece.
Qed.

Lemma no_lf_head_space (s rest : string) :
  head_space s = Some rest -> no_lf s = true -> no_lf rest = true.
Proof.
  intros (a & [-> | [(b & ->) | (b & c & ->)]])%head_space_cases; simpl;
    intros H; repeat (apply andb_true_iff in H as [_ H]); exact H.
Qed.

Lemma no_lf_lstrip (s : string) : no_lf s = true -> no_lf (lstrip s) = true.
Proof.
  induction s as [s Hs | s rest Hs IH] using strip_ind;
    rewrite lstrip_unfold, Hs; [done|].
  intros Hno. by apply IH, (no_lf_head_space s).
Qed.

Lemma no_lf_rstrip (s : string) : no_lf s = true -> no_lf (rstrip s) = true.
Proof.
  induction s as [|c s IH]; [done|]. intros Hno.
  rewrite rstrip_cons. destruct (all_space (String c s)); [reflexivity|].
  simpl in *. apply andb_true_iff in Hno as [Hc Hs]. by rewrite Hc, (IH Hs).
Qed.

(** What holds of every line the clean-up keeps. *)
Definition kept_line (line : string) : Prop :=
  String.eqb line "" = false /\ strip line = line /\ no_lf line = true.

Lemma clean_lines_kept (text : string) : Forall kept_line (clean_lines text).
Proof.
  unfold clean_lines. apply Forall_forall. intros line Hin.
  apply list_elem_of_In, in_map_iff in Hin as (raw & <- & Hraw).
  apply filter_In in Hraw as [Hraw Hkeep]. apply negb_true_iff in Hkeep.
  repeat split.
  - exact Hkeep.
  - apply strip_strip.
  - apply no_lf_rstrip, no_lf_lstrip.
    pose proof (no_lf_split_lines text) as Hall.
    rewrite Forall_forall in Hall. by apply Hall, list_elem_of_In.
Qed.

(** X7. The cleaned text is empty, or it is made of lines none of which is
    empty or starts or ends with whitespace: its lines are exactly the ones
    the clean-up kept. *)
Theorem clean_text_shape (text : string) :
  (clean_lines text = [] /\ clean_text text = "")
  \/ (split_lines (clean_text text) = clean_lines text
      /\ Forall (fun line => String.eqb line "" = false
                             /\ starts_clean line = true
                             /\ ends_clean line = true)
                (split_lines (clean_text text))).
Proof.
  rewrite clean_text_lines.
  destruct (clean_lines text) as [|line rest] eqn:Hlines; [by left|]. right.
  pose proof (clean_lines_kept text) as Hkept. rewrite Hlines in Hkept.
  assert (Hsplit : split_lines (join LF (line :: rest)) = line :: rest).
  { apply split_lines_join_cons.
    eapply Forall_impl; [exact Hkept|]. by intros l (_ & _ & Hl). }
  split; [exact Hsplit|]. rewrite Hsplit.
  eapply Forall_impl; [exact Hkept|]. intros l (Hne & Hstrip & _).
  split; [exact Hne|]. rewrite <- Hstrip.
  split; [apply strip_starts_clean | apply strip_ends_clean].
Qed.

Lemma kept_lines_fixed (lines : list string) :
  Forall kept_line lines ->
  List.map strip
    (List.filter (fun line => negb (String.eqb (strip line) "")) lines)
  = lines.
Proof.
  induction 1 as [|line rest (Hne & Hstrip & _) _ IH]; [reflexivity|].
  simpl. rewrite Hstrip, Hne. simpl. by rewrite Hstrip, IH.
Qed.

(** X8. Cleaning a cleaned text changes nothing. *)
Theorem clean_text_idempotent (text : string) :
  clean_text (clean_text text) = clean_text text.
Proof.
  pose proof (clean_lines_kept text) as Hkept.
  rewrite (clean_text_lines (clean_text text)). unfold clean_lines at 1.
  rewrite (clean_text_lines text).
  destruct (clean_lines text) as [|line rest] eqn:Hlines; [reflexivity|].
  rewrite split_lines_join_cons.
  - f_equal. by apply kept_lines_fixed.
  - eapply Forall_impl; [exact Hkept|]. by intros l (_ & _ & Hl).
Qed.

Section Run.

Context {W : Type}.
Variable requests_get : string -> Z -> gmap string string -> M W http_response.
Variable http_error_msg : http_response -> string.
Variable soup_text : string -> result string.

(** X9. A response with a 4xx or 5xx status is reported by its status
    code: the answer is [ERROR: HTTP error <code> while fetching <url>],
    whatever the page holds and whatever the parser would do with it. *)
Theorem run_http_error (url : string) (w w' : W) (response : http_response) :
  requests_get url 15 {[ "User-Agent" := user_agent ]} w = (Ok response, w') ->
  (400 <= status_code response < 600)%Z ->
  _run requests_get http_error_msg soup_text url w
  = (Ok ("ERROR: HTTP error " ++ pretty (status_code response)
         ++ " while fetching " ++ url), w').
Proof.
  intros Hget [Hlo Hhi]. apply Z.leb_le in Hlo. apply Z.ltb_lt in Hhi.
  unfold _run, try_except, fetch, bind, raise_for_status, raise.
  rewrite Hget, Hlo, Hhi. reflexivity.
Qed.

(** X10. A response with any other status is parsed, and the answer is the
    clean-up of the text the parser extracts; the world is the one the
    request left. *)
Theorem run_page_text
    (url : string) (w w' : W) (response : http_response) (page : string) :
  requests_get url 15 {[ "User-Agent" := user_agent ]} w = (Ok response, w') ->
  (status_code response < 400 \/ 600 <= status_code response)%Z ->
  soup_text (text response) = Ok page ->
  _run requests_get http_error_msg soup_text url w = (Ok (clean_text page), w').
Proof.
  intros Hget Hcode Hsoup.
  unfold _run, try_except, fetch, bind, raise_for_status, ret, lift.
  rewrite Hget.
  assert (Hraise : (400 <=? status_code response)%Z
                   && (status_code response <? 600)%Z = false).
  { apply andb_false_iff. destruct Hcode as [Hlow | Hhigh].
    - left. apply Z.leb_gt. exact Hlow.
    - right. apply Z.ltb_ge. exact Hhigh. }
  rewrite Hraise, Hsoup. reflexivity.
Qed.

End Run.

(** *** On concrete pages *)

Lemma split_lines_join_witness :
  split_lines (join LF ["CS 101"; ""; "Syllabus"]) = ["CS 101"; ""; "Syllabus"].
Proof.
  apply (split_lines_join ["CS 101"; ""; "Syllabus"]); [discriminate|].
  repeat constructor.
Defined.

Lemma run_http_error_witness :
  _run (InMemory.site (HttpResponse 503 "down")) (fun _ => "503 Server Error")
       InMemory.plain_text "https://example.org/cs101" tt
  = (Ok ("ERROR: HTTP error " ++ pretty 503%Z
         ++ " while fetching " ++ "https://example.org/cs101"), tt).
Proof.
  apply (run_http_error (InMemory.site (HttpResponse 503 "down"))
           (fun _ => "503 Server Error") InMemory.plain_text
           "https://example.org/cs101" tt tt (HttpResponse 503 "down"));
    [reflexivity | simpl; lia].
Defined.

Lemma run_page_text_witness :
  _run (InMemory.site (HttpResponse 200 ("  CS 101 " ++ LF ++ LF ++ " Syllabus" ++ LF)))
       (fun _ => "") InMemory.plain_text "https://example.org/cs101" tt
  = (Ok (clean_text ("  CS 101 " ++ LF ++ LF ++ " Syllabus" ++ LF)), tt).
Proof.
  apply (run_page_text
           (InMemory.site (HttpResponse 200 ("  CS 101 " ++ LF ++ LF ++ " Syllabus" ++ LF)))
           (fun _ => "") InMemory.plain_text "https://example.org/cs101" tt tt
           (HttpResponse 200 ("  CS 101 " ++ LF ++ LF ++ " Syllabus" ++ LF)));
    [reflexivity | simpl; lia | reflexivity].
Defined.

(** [strip] takes the no-break space and the em space off the ends, as it
    takes the ASCII space; the zero width space U+200B (E2 80 8B) is not
    whitespace and stays. *)
Example strip_unicode_space :
  strip (InMemory.no_break_space ++ " Week 1 " ++ InMemory.em_space) = "Week 1"
  /\ strip (InMemory.zero_width_space ++ "Week 1 ")
     = InMemory.zero_width_space ++ "Week 1".
Proof. split; reflexivity. Qed.

End FetcherMore.

(** ** More on the completion e-mail *)

Module EmailMore.

Import EmailService EmailProps.

Section Props.

Context {W : Type}.
Variable emails_send : pydict -> W -> result pydict * W.
Variable stdout_write : string -> W -> result unit * W.
Variable repr_compound : pyval -> string.

(** X11. [send_results_email] answers [True] exactly when a non-empty
    [RESEND_API_KEY] is set, the delivery call returns and the [print] of the
    success line returns as well; the key is then the one installed in
    [resend.api_key] and the outside is what that print left.  A message
    that was delivered but whose success line could not be printed is
    therefore not reported as sent. *)
Theorem send_results_email_true_iff
    (to_email search_title : string) (resources : list pydict)
    (job_id : string) (w : world W) :
  let out := send_results_email emails_send stdout_write repr_compound
               to_email search_title resources job_id w in
  let sent :=
    emails_send
      (email_params (from_email_of (environ w)) to_email search_title
         (_build_email_html repr_compound search_title resources job_id))
      (ext w) in
  let printed (response : pydict) :=
    stdout_write (sent_line repr_compound to_email response) sent.2 in
  (out.1 = Ok true <->
   not_configured (environ w !! "RESEND_API_KEY") = false
   /\ exists response, sent.1 = Ok response /\ (printed response).1 = Ok tt)
  /\ (out.1 = Ok true ->
      api_key out.2 = environ w !! "RESEND_API_KEY"
      /\ exists response,
           sent.1 = Ok response /\ ext out.2 = (printed response).2).
Proof.
  intros out sent printed. subst out sent printed.
  unfold send_results_email, bind, getenv, try_except, resend_emails_send,
    set_api_key, print, ret, from_email_of, sent_line.
  destruct (environ w !! "RESEND_API_KEY") as [key|] eqn:Hkey; simpl.
  - destruct (String.eqb key "") eqn:Hempty; simpl.
    + destruct (stdout_write _ (ext w)) as [[[]|e] f1]; simpl;
        (split; [split|]; [discriminate | intros [? _]; discriminate | discriminate]).
    + destruct (emails_send _ (ext w)) as [[response | e] e1]; simpl.
      * destruct (stdout_write _ e1) as [[[]|e] f1] eqn:Hprint; simpl.
        -- split; [split|].
           ++ intros _. split; [reflexivity|]. exists response.
              rewrite Hprint. by split.
           ++ reflexivity.
           ++ intros _. split; [reflexivity|]. exists response.
              rewrite Hprint. by split.
        -- destruct (stdout_write _ f1) as [[[]|e'] f2]; simpl;
             (split; [split|];
              [discriminate
              | intros [_ (response' & [= <-] & Hp)]; rewrite Hprint in Hp;
                discriminate
              | discriminate]).
      * destruct (stdout_write _ e1) as [[[]|e'] f1]; simpl;
          (split; [split|];
           [discriminate | intros [_ (? & ? & _)]; discriminate | discriminate]).
  - destruct (stdout_write _ (ext w)) as [[[]|e] f1]; simpl;
      (split; [split|]; [discriminate | intros [? _]; discriminate | discriminate]).
Qed.

(** X12. The body counts the results and puts the noun in the singular for
    exactly one result, in the plural otherwise (for none as well). *)
Theorem email_counts_results
    (search_title : string) (resources : list pydict) (job_id : string) :
  contains
    ("We found " ++ pretty (List.length resources)
     ++ (if Nat.eqb (List.length resources) 1
         then " resource for you" else " resources for you"))
    (_build_email_html repr_compound search_title resources job_id).
Proof.
  unfold _build_email_html.
  match goal with
  | |- contains _ (?l0 ++ _ ++ ?l1 ++ _ ++ ?l2 ++ _ ++ ?l3 ++ ?rest) =>
      pose (p1 := String.substring 0 (String.length l1 - 9) l1);
      pose (q3 := String.substring 8 (String.length l3 - 8) l3);
      assert (H1 : l1 = p1 ++ "We found ") by (vm_compute; reflexivity);
      assert (H3 : l3 = " for you" ++ q3) by (vm_compute; reflexivity);
      rewrite H1, H3; clearbody p1 q3;
      exists (l0 ++ search_title ++ p1), (q3 ++ rest)
  end.
  rewrite !append_assoc. do 4 f_equal.
  destruct (Nat.eqb (List.length resources) 1); reflexivity.
Qed.

End Props.

(** *** On concrete deliveries *)

Lemma send_results_email_true_iff_witness :
  (send_results_email InMemory.emails_send_ok InMemory.console_ok
     InMemory.repr_compound
     "ada@example.org" "Algorithms Resources" [InMemory.one_resource] "7"
     (InMemory.mail_world {[ "RESEND_API_KEY" := "re_123" ]})).1
  = Ok true.
Proof.
  apply (send_results_email_true_iff InMemory.emails_send_ok
           InMemory.console_ok
           InMemory.repr_compound "ada@example.org" "Algorithms Resources"
           [InMemory.one_resource] "7"
           (InMemory.mail_world {[ "RESEND_API_KEY" := "re_123" ]})).
  split; [reflexivity|]. eexists. split; reflexivity.
Defined.

(** A message that went out while the console is closed: the success line
    cannot be printed, the handler's print raises too, and the caller gets
    an exception for a delivered message. *)
Example send_results_email_delivered_unreported :
  send_results_email InMemory.emails_send_ok InMemory.console_closed
    InMemory.repr_compound
    "ada@example.org" "Algorithms Resources" [] "7"
    (InMemory.mail_world {[ "RESEND_API_KEY" := "re_123" ]})
  = (Raise (Exn OtherException "I/O operation on closed file."),
     World tt {[ "RESEND_API_KEY" := "re_123" ]} (Some "re_123") []).
Proof. reflexivity. Qed.

(** A delivered message: the key is installed, the sender is the default
    one, and one line reports the message id. *)
Example send_results_email_delivered :
  send_results_email InMemory.emails_send_ok InMemory.console_ok
    InMemory.repr_compound
    "ada@example.org" "Algorithms Resources" [] "7"
    (InMemory.mail_world {[ "RESEND_API_KEY" := "re_123" ]})
  = (Ok true,
     World tt {[ "RESEND_API_KEY" := "re_123" ]} (Some "re_123")
       ["✅ Email sent successfully to ada@example.org (ID: msg_1)"]).
Proof. reflexivity. Qed.

Lemma email_counts_results_witness :
  contains "We found 1 resource for you"
    (_build_email_html InMemory.repr_compound "Algorithms Resources"
       [InMemory.one_resource] "7").
Proof.
  apply (email_counts_results InMemory.repr_compound "Algorithms Resources"
           [InMemory.one_resource] "7").
Defined.

End EmailMore.

(** ** The logging set-up *)

Module LoggingProps.

Import LoggingConfig.

Section Props.

Context {Path Level F : Type}.
Variable default_log_dir : Path.
Variable path_join : Path -> string -> Path.
Variable mkdir : Path -> F -> result unit * F.
Variable open_log_file : Path -> F -> result unit * F.
Variable level_attr : string -> result Level.
Variable basic_config : Level -> list (handler Path) -> F -> result unit * F.

Abbreviation configure :=
  (configure_logging default_log_dir path_join mkdir open_log_file level_attr
     basic_config).
Abbreviation logger :=
  (get_logger default_log_dir path_join mkdir open_log_file level_attr
     basic_config).
Abbreviation debug_mode :=
  (set_debug_mode default_log_dir path_join mkdir open_log_file level_attr
     basic_config).

(** The handlers a set-up with these arguments installs, and the calls it
    makes before [basicConfig]. *)
Definition handlers_for (log_file : option string) (log_dir : option Path)
  : list (handler Path) :=
  let dir := default default_log_dir log_dir in
  if file_given log_file
  then [ StreamHandler log_format;
         FileHandler (path_join dir (default "" log_file)) log_format ]
  else [ StreamHandler log_format ].

Definition file_calls (log_file : option string) (log_dir : option Path)
  : list (call Path Level) :=
  let dir := default default_log_dir log_dir in
  if file_given log_file
  then [ CallMkdir dir; CallOpenLogFile (path_join dir (default "" log_file)) ]
  else [].

Lemma configure_logging_cases
    (log_level : string) (log_file : option string) (log_dir : option Path)
    (w : world Path Level F) :
  _logging_configured w = false ->
  match configure log_level log_file log_dir w with
  | (Ok _, w1) =>
      _logging_configured w1 = true
      /\ exists level,
           level_attr log_level = Ok level
           /\ calls w1
              = (calls w ++ file_calls log_file log_dir
                   ++ [CallBasicConfig level (handlers_for log_file log_dir)])%list
  | (Raise _, w1) =>
      _logging_configured w1 = false
      /\ exists made, calls w1 = (calls w ++ made)%list
  end.
Proof.
  intros Hflag.
  unfold configure_logging, handlers_for, file_calls, bind, outside, lift,
    set_configured, ret.
  rewrite Hflag.
  destruct (file_given log_file); simpl.
  - destruct (mkdir _ (ext w)) as [[[] | e] f1]; simpl;
      [|split; [done | by eexists]].
    destruct (open_log_file _ f1) as [[[] | e] f2]; simpl;
      [|split; [done | by eexists (_ :: _ :: nil); rewrite <- app_assoc]].
    destruct (level_attr log_level) as [level | e]; simpl;
      [|split; [done | by eexists (_ :: _ :: nil); rewrite <- app_assoc]].
    destruct (basic_config level _ f2) as [[[] | e] f3]; simpl.
    + split; [done|]. exists level. split; [done|].
      by rewrite <- !app_assoc.
    + split; [done|]. eexists (_ :: _ :: _ :: nil). by rewrite <- !app_assoc.
  - destruct (level_attr log_level) as [level | e]; simpl;
      [|split; [done | exists []; by rewrite app_nil_r]].
    destruct (basic_config level _ (ext w)) as [[[] | e] f3]; simpl.
    + split; [done|]. by exists level.
    + split; [done|]. by eexists.
Qed.

Lemma configured_noop
    (log_level : string) (log_file : option string) (log_dir : option Path)
    (name : string) (w : world Path Level F) :
  _logging_configured w = true ->
  configure log_level log_file log_dir w = (Ok tt, w)
  /\ logger name w = (Ok name, w).
Proof.
  intros Hflag. unfold get_logger, configure_logging, bind, ret.
  by rewrite Hflag.
Qed.

(** X13. A set-up that starts unconfigured and returns has made the
    directory and opened the log file only when a non-empty file name was
    given, has called [basicConfig] once, last, with the level found for
    the level name and with the console handler (and the file handler, if
    any), and has set the flag. *)
Theorem configure_logging_success
    (log_level : string) (log_file : option string) (log_dir : option Path)
    (w w1 : world Path Level F) :
  _logging_configured w = false ->
  configure log_level log_file log_dir w = (Ok tt, w1) ->
  _logging_configured w1 = true
  /\ exists level,
       level_attr log_level = Ok level
       /\ calls w1
          = (calls w ++ file_calls log_file log_dir
               ++ [CallBasicConfig level (handlers_for log_file log_dir)])%list.
Proof.
  intros Hflag Hrun.
  pose proof (configure_logging_cases log_level log_file log_dir w Hflag) as H.
  by rewrite Hrun in H.
Qed.

(** X14. Once a set-up has returned, every later [configure_logging],
    whatever its arguments, and every [get_logger] leaves the world exactly
    as it is: no directory is made, no file opened, no handler replaced. *)
Theorem configure_logging_once
    (log_level : string) (log_file : option string) (log_dir : option Path)
    (w w1 : world Path Level F) :
  configure log_level log_file log_dir w = (Ok tt, w1) ->
  forall (log_level' : string) (log_file' : option string)
         (log_dir' : option Path) (name : string),
    configure log_level' log_file' log_dir' w1 = (Ok tt, w1)
    /\ logger name w1 = (Ok name, w1).
Proof.
  intros Hrun log_level' log_file' log_dir' name.
  apply configured_noop. destruct (_logging_configured w) eqn:Hw.
  - unfold configure_logging in Hrun. rewrite Hw in Hrun.
    injection Hrun as <-. exact Hw.
  - pose proof (configure_logging_cases log_level log_file log_dir w Hw) as H.
    rewrite Hrun in H. apply H.
Qed.

(** X15. A set-up that raises, at whichever step, leaves the flag unset, so
    the next [get_logger] tries again; the calls made so far stay made. *)
Theorem configure_logging_failure
    (log_level : string) (log_file : option string) (log_dir : option Path)
    (w w1 : world Path Level F) (e : exn) :
  configure log_level log_file log_dir w = (Raise e, w1) ->
  _logging_configured w = false
  /\ _logging_configured w1 = false
  /\ exists made, calls w1 = (calls w ++ made)%list.
Proof.
  intros Hrun. destruct (_logging_configured w) eqn:Hw.
  - unfold configure_logging in Hrun. by rewrite Hw in Hrun.
  - split; [done|].
    pose proof (configure_logging_cases log_level log_file log_dir w Hw) as H.
    by rewrite Hrun in H.
Qed.

(** X16. [set_debug_mode] sets logging up again even when it was configured
    before: when it returns, the directory was made, [cache.log] opened, and
    [basicConfig] called with the [DEBUG] level and both handlers; when it
    raises, logging is left marked as not configured. *)
Theorem set_debug_mode_reconfigures (w : world Path Level F) :
  match debug_mode w with
  | (Ok _, w1) =>
      _logging_configured w1 = true
      /\ exists level,
           level_attr "DEBUG" = Ok level
           /\ calls w1
              = (calls w
                 ++ [ CallMkdir default_log_dir;
                      CallOpenLogFile (path_join default_log_dir "cache.log");
                      CallBasicConfig level
                        [ StreamHandler log_format;
                          FileHandler (path_join default_log_dir "cache.log")
                                      log_format ] ])%list
  | (Raise _, w1) => _logging_configured w1 = false
  end.
Proof.
  unfold set_debug_mode, bind, set_configured. simpl.
  pose proof (configure_logging_cases "DEBUG" (Some "cache.log") None
                (World false (ext w) (calls w)) eq_refl) as H.
  destruct (configure "DEBUG" (Some "cache.log") None
              (World false (ext w) (calls w))) as [[[] | e] w1].
  - exact H.
  - apply H.
Qed.

(** X17. The first [get_logger] on an unconfigured process sets logging up
    with the defaults ([INFO], [cache.log] in the default directory) and
    returns the logger asked for; a second [get_logger] then changes
    nothing. *)
Theorem get_logger_configures_once (name : string) (w w1 : world Path Level F)
    (got : string) :
  _logging_configured w = false ->
  logger name w = (Ok got, w1) ->
  got = name
  /\ (exists level,
        level_attr "INFO" = Ok level
        /\ calls w1
           = (calls w
              ++ [ CallMkdir default_log_dir;
                   CallOpenLogFile (path_join default_log_dir "cache.log");
                   CallBasicConfig level
                     [ StreamHandler log_format;
                       FileHandler (path_join default_log_dir "cache.log")
                                   log_format ] ])%list)
  /\ forall other : string, logger other w1 = (Ok other, w1).
Proof.
  intros Hflag Hrun. unfold get_logger, bind, ret in Hrun.
  rewrite Hflag in Hrun. simpl in Hrun. unfold configure_logging_default in Hrun.
  destruct (configure "INFO" (Some "cache.log") None w) as [[[] | e] w2] eqn:Hcfg;
    [|discriminate].
  injection Hrun as <- <-.
  pose proof (configure_logging_cases "INFO" (Some "cache.log") None w Hflag) as H.
  rewrite Hcfg in H. destruct H as (Hset & level & Hlevel & Hcalls).
  split; [done|]. split; [by exists level|].
  intros other. by apply (configured_noop "INFO" None None).
Qed.

End Props.

(** *** On a concrete process *)

Abbreviation configure0 :=
  (configure_logging "/srv/app/logs" InMemory.slash InMemory.fs_ok InMemory.fs_ok
     InMemory.level_names InMemory.basic_config_ok).

Lemma configure_logging_success_witness :
  let w1 := (configure0 "DEBUG" (Some "") None InMemory.fresh_logging).2 in
  _logging_configured w1 = true
  /\ calls w1 = [ CallBasicConfig 10%Z [ StreamHandler log_format ] ].
Proof.
  destruct (configure_logging_success "/srv/app/logs" InMemory.slash
              InMemory.fs_ok InMemory.fs_ok InMemory.level_names
              InMemory.basic_config_ok "DEBUG" (Some "") None
              InMemory.fresh_logging
              (configure0 "DEBUG" (Some "") None InMemory.fresh_logging).2
              eq_refl eq_refl)
    as (Hset & level & Hlevel & Hcalls).
  split; [exact Hset|]. injection Hlevel as <-. exact Hcalls.
Defined.

Lemma configure_logging_once_witness :
  let w1 := (configure0 "INFO" (Some "cache.log") None InMemory.fresh_logging).2 in
  configure0 "DEBUG" None (Some "/tmp") w1 = (Ok tt, w1).
Proof.
  apply (configure_logging_once "/srv/app/logs" InMemory.slash
           InMemory.fs_ok InMemory.fs_ok InMemory.level_names
           InMemory.basic_config_ok "INFO" (Some "cache.log") None
           InMemory.fresh_logging
           (configure0 "INFO" (Some "cache.log") None InMemory.fresh_logging).2
           eq_refl "DEBUG" None (Some "/tmp") "backend").
Defined.

Lemma configure_logging_failure_witness :
  let w1 := (configure0 "VERBOSE" (Some "cache.log") None
               InMemory.fresh_logging).2 in
  _logging_configured InMemory.fresh_logging = false
  /\ _logging_configured w1 = false
  /\ exists made, calls w1 = ([] ++ made)%list.
Proof.
  apply (configure_logging_failure "/srv/app/logs" InMemory.slash
           InMemory.fs_ok InMemory.fs_ok InMemory.level_names
           InMemory.basic_config_ok "VERBOSE" (Some "cache.log") None
           InMemory.fresh_logging
           (configure0 "VERBOSE" (Some "cache.log") None InMemory.fresh_logging).2
           (Exn OtherException "module 'logging' has no attribute 'VERBOSE'")
           eq_refl).
Defined.

Lemma get_logger_configures_once_witness :
  let w1 := (get_logger "/srv/app/logs" InMemory.slash InMemory.fs_ok
               InMemory.fs_ok InMemory.level_names InMemory.basic_config_ok
               "backend.jobs" InMemory.fresh_logging).2 in
  get_logger "/srv/app/logs" InMemory.slash InMemory.fs_ok InMemory.fs_ok
    InMemory.level_names InMemory.basic_config_ok "backend.main" w1
  = (Ok "backend.main", w1).
Proof.
  apply (get_logger_configures_once "/srv/app/logs" InMemory.slash
           InMemory.fs_ok InMemory.fs_ok InMemory.level_names
           InMemory.basic_config_ok "backend.jobs" InMemory.fresh_logging
           (get_logger "/srv/app/logs" InMemory.slash InMemory.fs_ok
              InMemory.fs_ok InMemory.level_names InMemory.basic_config_ok
              "backend.jobs" InMemory.fresh_logging).2
           "backend.jobs" eq_refl eq_refl).
Defined.

(** A level name the [logging] module does not know stops the set-up after
    the directory and the file were made. *)
Example configure_logging_unknown_level :
  calls (configure0 "VERBOSE" (Some "cache.log") None InMemory.fresh_logging).2
  = [ CallMkdir "/srv/app/logs"; CallOpenLogFile "/srv/app/logs/cache.log" ].
Proof. reflexivity. Qed.

End LoggingProps.

(** ** The store client *)

Module DatabaseProps.

Import Database.

Section Props.

Context {Client W : Type}.
Variable create_client : string -> string -> W -> result Client * W.

(** X18. Importing the module raises its [ValueError], without calling
    [create_client], exactly when [SUPABASE_URL] or [SUPABASE_ANON_KEY] is
    missing or empty; otherwise [create_client] is called once with the two
    values, and the import ends as that call ends. *)
Theorem import_module_outcomes (environ : gmap string string) (w : W) :
  match import_module create_client environ w with
  | (ValueError msg, w') =>
      msg = credentials_missing /\ w' = w
      /\ (unset (environ !! "SUPABASE_URL") = true
          \/ unset (environ !! "SUPABASE_ANON_KEY") = true)
  | (Imported supabase, w') =>
      exists url key,
        environ !! "SUPABASE_URL" = Some url /\ String.eqb url "" = false
        /\ environ !! "SUPABASE_ANON_KEY" = Some key /\ String.eqb key "" = false
        /\ create_client url key w = (Ok supabase, w')
  | (CreateClientRaised e, w') =>
      exists url key,
        environ !! "SUPABASE_URL" = Some url /\ String.eqb url "" = false
        /\ environ !! "SUPABASE_ANON_KEY" = Some key /\ String.eqb key "" = false
        /\ create_client url key w = (Raise e, w')
  end.
Proof.
  unfold import_module, unset.
  destruct (environ !! "SUPABASE_URL") as [url|]; simpl; [|by auto].
  destruct (String.eqb url "") eqn:Hurl; simpl; [by auto|].
  destruct (environ !! "SUPABASE_ANON_KEY") as [key|]; simpl; [|by auto].
  destruct (String.eqb key "") eqn:Hkey; simpl; [by auto|].
  destruct (create_client url key w) as [[supabase | e] w'] eqn:Hcreate;
    exists url, key; by rewrite Hcreate.
Qed.

End Props.

(** An empty key is as good as none. *)
Example import_module_empty_key :
  import_module InMemory.create_client_ok
    {[ "SUPABASE_URL" := "https://db.example.org"; "SUPABASE_ANON_KEY" := "" ]} tt
  = (ValueError credentials_missing, tt).
Proof. reflexivity. Qed.

Example import_module_ok :
  import_module InMemory.create_client_ok
    {[ "SUPABASE_URL" := "https://db.example.org"; "SUPABASE_ANON_KEY" := "k" ]} tt
  = (Imported ("https://db.example.org", "k"), tt).
Proof. reflexivity. Qed.

End DatabaseProps.
